(** * SAR Doppler subswath fusion: [DatasetManager.get_or_create]

    A shallow embedding of the data-product part of
    [sar_doppler/managers.py] (Python 2), from the comment "Create data
    products" to the final [return ds, not is_corrupted], and of the
    arithmetic it is built from.

    - Python floats and numpy float64 arrays are IEEE 754 binary64 values,
      taken from [SpecFloat] with precision 53 and maximal exponent 1024;
      the bands are float64 arrays, like the arrays the manager makes with
      [np.zeros].
    - A raised Python exception is the [Raise] branch of [result].
    - The five [Doppler] objects of [swath_data] are band stores; a band
      that cannot be read is a band the store does not answer for, and a
      read gives the same answer each time it is repeated on the same store.
    - Everything the manager calls but does not define (libm, numpy's
      reductions, the methods of [Doppler] and [Nansat], the catalogue and
      the file system) is a field of the record [Env]; the methods are
      queries, they do not change the subswath they are asked about. *)

From Stdlib Require Import ZArith Lia Bool String.
From Stdlib Require Import Floats.SpecFloat.
From stdpp Require Import base option list.

Local Open Scope Z_scope.

(** ** Binary64 arithmetic *)

Module F64.

Definition prec : Z := 53.
Definition emax : Z := 1024.

Definition float : Type := spec_float.

Definition nan : float := S754_nan.
Definition zero : float := S754_zero false.

Definition add : float -> float -> float := SFadd prec emax.
Definition sub : float -> float -> float := SFsub prec emax.
Definition mul : float -> float -> float := SFmul prec emax.
Definition div : float -> float -> float := SFdiv prec emax.
Definition sqrt : float -> float := SFsqrt prec emax.
Definition neg : float -> float := SFopp.

Definition eqb : float -> float -> bool := SFeqb.
Definition leb : float -> float -> bool := SFleb.
Definition ltb : float -> float -> bool := SFltb.

(** Python's [!=] on floats: true as soon as one side is NaN. *)
Definition neqb (x y : float) : bool := negb (eqb x y).

(** Conversion of an integer, rounded to nearest even. *)
Definition of_Z (z : Z) : float := binary_normalize prec emax z 0 false.

Definition is_nan (x : float) : bool :=
  match x with S754_nan => true | _ => false end.

(** [np.isfinite] *)
Definition is_finite (x : float) : bool :=
  match x with
  | S754_zero _ | S754_finite _ _ _ => true
  | S754_infinity _ | S754_nan => false
  end.

(** Truncation toward zero, Python's [int(x)] on a finite float. *)
Definition trunc (x : float) : option Z :=
  match x with
  | S754_zero _ => Some 0
  | S754_finite s m e =>
      let a := match e with
               | Z0 => Zpos m
               | Zpos p => Z.shiftl (Zpos m) e
               | Zneg p => Z.shiftr (Zpos m) (Zpos p)
               end in
      Some (if s then - a else a)
  | S754_infinity _ | S754_nan => None
  end.

(** [np.floor] followed by conversion to an integer. *)
Definition floor (x : float) : option Z :=
  match x with
  | S754_zero _ => Some 0
  | S754_finite s m e =>
      Some match e with
           | Z0 => if s then Zneg m else Zpos m
           | Zpos p => Z.shiftl (if s then Zneg m else Zpos m) e
           | Zneg p => Z.shiftr (if s then Zneg m else Zpos m) (Zpos p)
           end
  | S754_infinity _ | S754_nan => None
  end.

(** Rounding to the nearest integer, ties to even ([round], [np.round]). *)
Definition round (x : float) : option Z :=
  match floor x with
  | Some lo =>
      let frac := sub x (of_Z lo) in
      let half := div (of_Z 1) (of_Z 2) in
      Some (if ltb half frac then lo + 1
            else if eqb frac half then (if Z.even lo then lo else lo + 1)
            else lo)
  | None => None
  end.

(** [math.pi] and [np.pi]: 0x1.921fb54442d18p+1 *)
Definition pi : float := S754_finite false 7074237752028440 (-51).

End F64.

Arguments F64.add : simpl never.
Arguments F64.sub : simpl never.
Arguments F64.mul : simpl never.
Arguments F64.div : simpl never.
Arguments F64.sqrt : simpl never.
Arguments F64.of_Z : simpl never.
Arguments F64.eqb : simpl never.
Arguments F64.leb : simpl never.
Arguments F64.ltb : simpl never.
Arguments F64.trunc : simpl never.
Arguments F64.floor : simpl never.

Abbreviation float := F64.float.

(** ** Exceptions *)

Inductive exn : Type :=
| KeyError (key : string)      (* a band that cannot be read *)
| IndexError
| ValueError
| NameError (var : string)
| ExternalError (who : string). (* raised inside a collaborator *)

Inductive result (A : Type) : Type :=
| Ok (a : A)
| Raise (e : exn).
Arguments Ok {A} a.
Arguments Raise {A} e.

#[global] Instance result_ret : MRet result := fun A a => Ok a.

#[global] Instance result_bind : MBind result := fun A B k r =>
  match r with
  | Ok a => k a
  | Raise e => Raise e
  end.

Definition raises {A : Type} (r : result A) : Prop := exists e, r = Raise e.

(** ** The wavenumber (line 156) *)

Definition wavenumber : float :=
  F64.mul (F64.mul (F64.div (F64.of_Z 5331004416) (F64.of_Z 299792458))
                   (F64.of_Z 2))
          F64.pi.

Definition speed_of_light : float := F64.of_Z 299792458.
Definition carrier_frequency : float := F64.of_Z 5331004416.

(** The wavenumber as the specification words it: speed of light over
    carrier frequency, times two pi. *)
Definition wavenumber_as_specified : float :=
  F64.mul (F64.mul (F64.div speed_of_light carrier_frequency) (F64.of_Z 2))
          F64.pi.

(** The physical wavenumber of the carrier, [2 pi f / c], in the order of
    evaluation of the source. *)
Definition wavenumber_of_carrier : float :=
  F64.mul (F64.mul (F64.div carrier_frequency speed_of_light) (F64.of_Z 2))
          F64.pi.

(** ** numpy arrays

    A band is the row-major list of its pixels.  All bands of one Nansat
    object have the raster size of the object, so two of them agree in shape
    exactly when they agree in length; operands of different lengths are the
    [ValueError] (or [IndexError], for an index array) numpy raises on
    shapes that do not fit. *)

Abbreviation ndarray := (list float).

Open Scope string_scope.
Open Scope list_scope.

Section Arrays.
Context {A B C : Type}.

(** An elementwise binary operation on two arrays of one shape. *)
Definition elementwise (f : A -> B -> C) (a : list A) (b : list B)
  : result (list C) :=
  if Nat.eqb (length a) (length b) then Ok (zip_with f a b)
  else Raise ValueError.

(** [a[mask]] for a boolean [mask] of the shape of [a]. *)
Fixpoint compress (a : list A) (mask : list bool) : list A :=
  match a, mask with
  | x :: a', m :: mask' => if m then x :: compress a' mask' else compress a' mask'
  | _, _ => []
  end.

Definition select (a : list A) (mask : list bool) : result (list A) :=
  if Nat.eqb (length a) (length mask) then Ok (compress a mask)
  else Raise IndexError.

(** [a[idx]] for an array [idx] of positions. *)
Fixpoint take_at (a : list A) (idx : list nat) : result (list A) :=
  match idx with
  | [] => Ok []
  | k :: idx' =>
      match a !! k with
      | Some x => rest ← take_at a idx'; Ok (x :: rest)
      | None => Raise IndexError
      end
  end.

End Arrays.

(** [a[mask] = x] *)
Definition mask_assign {A : Type} (a : list A) (mask : list bool) (x : A)
  : result (list A) :=
  if Nat.eqb (length a) (length mask)
  then Ok (zip_with (fun p (m : bool) => if m then x else p) a mask)
  else Raise IndexError.

(** [np.where(mask)] on a flat array: the positions that hold [true]. *)
Fixpoint positions_from (k : nat) (mask : list bool) : list nat :=
  match mask with
  | [] => []
  | m :: mask' =>
      if m then k :: positions_from (S k) mask' else positions_from (S k) mask'
  end.

Definition np_where (mask : list bool) : list nat := positions_from 0 mask.

(** [mask.sum()] *)
Definition count_true (mask : list bool) : nat := length (compress mask mask).

(** [np.cumsum]: running sums, left to right. *)
Fixpoint cumsum_from (acc : float) (l : list float) : list float :=
  match l with
  | [] => []
  | x :: l' => let s := F64.add acc x in s :: cumsum_from s l'
  end.

Definition np_cumsum (l : list float) : list float :=
  match l with
  | [] => []
  | x :: l' => x :: cumsum_from x l'
  end.

(** [np.argmax]: the first position of the largest entry. *)
Fixpoint argmax_from (best_i : nat) (best : nat) (k : nat) (l : list nat) : nat :=
  match l with
  | [] => best_i
  | x :: l' =>
      if Nat.ltb best x then argmax_from k x (S k) l'
      else argmax_from best_i best (S k) l'
  end.

Definition np_argmax (l : list nat) : nat :=
  match l with
  | [] => 0%nat
  | x :: l' => argmax_from 0 x 1 l'
  end.

(** [np.sum] of a flat array, taken left to right from its first entry
    (numpy adds in blocks, which can only change the rounding of a sum of
    several terms); the sum of no term is 0.0. *)
Definition np_sum (l : list float) : float :=
  match l with
  | [] => F64.zero
  | x :: l' => fold_left F64.add l' x
  end.

Definition drop_nan (l : list float) : list float :=
  List.filter (fun x => negb (F64.is_nan x)) l.

(** [np.nanmean]: the NaN entries are replaced by 0, the array is summed and
    the sum divided by the number of entries that are not NaN; without such
    an entry this is [0.0 / 0], which is NaN. *)
Definition np_nanmean (l : list float) : float :=
  let filled := map (fun x => if F64.is_nan x then F64.zero else x) l in
  F64.div (np_sum filled) (F64.of_Z (Z.of_nat (length (drop_nan l)))).

(** Python's builtin [max] over an array: the first entry that no later one
    exceeds. *)
Definition py_max (l : list float) : result float :=
  match l with
  | [] => Raise ValueError
  | x :: l' => Ok (fold_left (fun m y => if F64.ltb m y then y else m) l' x)
  end.

(** ** The subswath objects *)

(** A band store: names in band order.  [add_band] appends; reading by name
    takes the first band of that name (Nansat renames a band added under a
    name in use, so the older band keeps answering to it). *)
Record Doppler : Type := {
  fileName : string;
  time_coverage_start : Z;        (* seconds *)
  bands : list (string * ndarray)
}.

Fixpoint find_band (name : string) (bs : list (string * ndarray))
  : option ndarray :=
  match bs with
  | [] => None
  | (n, a) :: bs' => if String.eqb n name then Some a else find_band name bs'
  end.

(** [swath[name]] *)
Definition get_band (sw : Doppler) (name : string) : result ndarray :=
  match find_band name (bands sw) with
  | Some a => Ok a
  | None => Raise (KeyError name)
  end.

Definition has_band (sw : Doppler) (name : string) : bool :=
  match find_band name (bands sw) with
  | Some _ => true
  | None => false
  end.

Definition add_band (sw : Doppler) (name : string) (a : ndarray) : Doppler :=
  {| fileName := fileName sw;
     time_coverage_start := time_coverage_start sw;
     bands := bands sw ++ [(name, a)] |}.

(** The short names of the well-known variables the manager adds bands for;
    they are the names it later reads and draws ('dca', 'fww', 'fdg', 'Ur'). *)
Definition wkv_anomaly : string :=
  "anomaly_of_surface_backwards_doppler_centroid_frequency_shift_of_radar_wave".
Definition wkv_wind_waves : string :=
  "surface_backwards_doppler_frequency_shift_of_radar_wave_due_to_wind_waves".
Definition wkv_surface_velocity : string :=
  "surface_backwards_doppler_frequency_shift_of_radar_wave_due_to_surface_velocity".
Definition wkv_radial_velocity : string :=
  "surface_radial_doppler_sea_water_velocity".

Definition wkv_short_name (wkv : string) : string :=
  if String.eqb wkv wkv_anomaly then "dca"
  else if String.eqb wkv wkv_wind_waves then "fww"
  else if String.eqb wkv wkv_surface_velocity then "fdg"
  else if String.eqb wkv wkv_radial_velocity then "Ur"
  else "band".

Definition add_band_wkv (sw : Doppler) (wkv : string) (a : ndarray) : Doppler :=
  add_band sw (wkv_short_name wkv) a.

(** A forecast wind field of the catalogue. *)
Record WindRecord : Type := {
  wind_time : Z;                  (* time_coverage_start, seconds *)
  wind_uris : list string         (* dataseturi_set *)
}.

(** A raw-Doppler field put on the common grid: its coverage mask and its
    first band. *)
Record Geocoded : Type := {
  swathmask : ndarray;
  band_1 : ndarray
}.

(** ** Collaborators *)

Record Env : Type := {
  (* libm *)
  libm_sin : float -> float;
  libm_pow : float -> float -> float;
  (* numpy *)
  np_nanmedian : list float -> float;
  np_nanstd : list float -> float;
  np_median : list float -> float;
  np_histogram : list float -> Z -> result (list Z * list float);
  np_convolve_same : list float -> list float -> result (list float);
  (* sardoppler.Doppler *)
  anomaly : Doppler -> result ndarray;
  polarization : Doppler -> result string;
  wind_waves_doppler : Doppler -> string -> string -> result ndarray;
  geophysical_doppler_shift : Doppler -> option string -> result ndarray;
  corrected_sigma0 : Doppler -> result ndarray;
  get_azimuth_time : Doppler -> result unit;
  (* geospaas catalogue: the NCEP-GFS datasets, in query order *)
  wind_catalogue : list WindRecord;
  (* nansat: reprojection onto the grid of the whole footprint *)
  geocode : Doppler -> ndarray -> result Geocoded;
  (* export of subswath [i], reprojection for display, drawing of a band *)
  export_netcdf : nat -> Doppler -> result unit;
  reproject_leaflet : Doppler -> result Doppler;
  visualize : nat -> Doppler -> string -> result unit
}.

Definition n_subswaths : nat := 5.

(** ** Loops *)

(** [for i in l: s = body(i, s)]; an exception leaves the loop. *)
Fixpoint for_each {S : Type} (body : nat -> S -> result S) (l : list nat) (s : S)
  : result S :=
  match l with
  | [] => Ok s
  | i :: l' => s' ← body i s; for_each body l' s'
  end.

(** [[f(x) for x in l]] *)
Fixpoint for_list {A B : Type} (f : A -> result B) (l : list A)
  : result (list B) :=
  match l with
  | [] => Ok []
  | x :: l' => y ← f x; ys ← for_list f l'; Ok (y :: ys)
  end.

(** [swath_data[i]] *)
Definition swath_at (swath_data : list Doppler) (i : nat) : result Doppler :=
  match swath_data !! i with
  | Some sw => Ok sw
  | None => Raise (KeyError "swath_data")
  end.

(** ** Radial velocity from a Doppler shift *)

(** [theta = incidence_angle * np.pi / 180.] *)
Definition radians (inci : ndarray) : ndarray :=
  map (fun a => F64.div (F64.mul a F64.pi) (F64.of_Z 180)) inci.

(** [-np.pi * shift / (wavenumber * np.sin(theta))] *)
Definition radial_velocity (E : Env) (shift theta : ndarray) : result ndarray :=
  elementwise F64.div
    (map (F64.mul (F64.neg F64.pi)) shift)
    (map (fun t => F64.mul wavenumber (libm_sin E t)) theta).

(** [v[valid_doppler != 2] = np.nan] *)
Definition mask_invalid (v flags : ndarray) : result ndarray :=
  mask_assign v (map (fun f => F64.neqb f (F64.of_Z 2)) flags) F64.nan.

(** ** Reading the subswaths (lines 128-197) *)

Record Locals : Type := {
  swath_data : list Doppler;
  is_corrupted : bool;
  wind : option (list WindRecord);   (* [None]: the name is not bound yet *)
  marked : list nat                  (* ghost: the subswaths at which
                                        [is_corrupted = True] was executed *)
}.

Definition three_hours : Z := 3 * 3600.

(** The forecast fields within three hours of the acquisition. *)
Definition matching_wind (E : Env) (sw : Doppler) : list WindRecord :=
  List.filter
    (fun w => (time_coverage_start sw - three_hours <=? wind_time w)
              && (wind_time w <=? time_coverage_start sw + three_hours))%Z
    (wind_catalogue E).

(** [min(wind, key=lambda w: abs(w.time - t))]: the first closest field. *)
Definition nearest_wind (t : Z) (wind : list WindRecord) : option WindRecord :=
  match wind with
  | [] => None
  | w :: ws =>
      Some (fold_left
              (fun best w' =>
                 if (Z.abs (wind_time w' - t) <? Z.abs (wind_time best - t))%Z
                 then w' else best)
              ws w)
  end.

(** [wind[dates.index(nearest_date)].dataseturi_set.all()[0].uri] *)
Definition wind_file (t : Z) (wind : list WindRecord) : result string :=
  match nearest_wind t wind with
  | Some w =>
      match wind_uris w with
      | u :: _ => Ok u
      | [] => Raise IndexError
      end
  | None => Raise ValueError
  end.

Definition derive_doppler (E : Env) (sw : Doppler)
  : result (Doppler * list WindRecord) :=
  dca ← anomaly E sw;
  let sw := add_band_wkv sw wkv_anomaly dca in
  let wind := matching_wind E sw in
  pol ← polarization E sw;
  '(sw, fdg) ←
    match wind with
    | _ :: _ =>
        file ← wind_file (time_coverage_start sw) wind;
        fww ← wind_waves_doppler E sw file pol;
        let sw := add_band_wkv sw wkv_wind_waves fww in
        fdg ← geophysical_doppler_shift E sw (Some file);
        inci ← get_band sw "incidence_angle";
        shift ← elementwise F64.sub fdg fww;
        vcurrent ← radial_velocity E shift (radians inci);
        Ok (add_band sw "raw_Ur" vcurrent, fdg)
    | [] =>
        fdg ← geophysical_doppler_shift E sw None;
        inci ← get_band sw "incidence_angle";
        vcurrent ← radial_velocity E fdg (radians inci);
        flags ← get_band sw "valid_doppler";
        vcurrent ← mask_invalid vcurrent flags;
        Ok (add_band sw "raw_Ur" vcurrent, fdg)
    end;
  let sw := add_band sw "raw_fdg" fdg in
  sigma0 ← corrected_sigma0 E sw;
  Ok (add_band sw ("corrected_sigma0_" ++ pol)%string sigma0, wind).

(** One turn of the loop: [is_corrupted] is set anew, and an unreadable
    incidence angle leaves the subswath as it was read. *)
Definition load_subswath (E : Env) (i : nat) (st : Locals) : result Locals :=
  sw ← swath_at (swath_data st) i;
  match get_band sw "incidence_angle" with
  | Raise _ =>
      Ok {| swath_data := swath_data st;
            is_corrupted := true;
            wind := wind st;
            marked := marked st ++ [i] |}
  | Ok _ =>
      '(sw', w) ← derive_doppler E sw;
      Ok {| swath_data := <[i := sw']> (swath_data st);
            is_corrupted := false;
            wind := Some w;
            marked := marked st |}
  end.

Definition load_stage (E : Env) (st : Locals) : result Locals :=
  for_each (load_subswath E) (seq 0 n_subswaths) st.

(** ** The land-pixel bias (lines 200-231) *)

(** [swath['valid_land_doppler'] == 1] *)
Definition land_mask (sw : Doppler) : result (list bool) :=
  flags ← get_band sw "valid_land_doppler";
  Ok (map (fun f => F64.eqb f (F64.of_Z 1)) flags).

(** [np.nanmedian(dc_std) + 2 * np.nanstd(dc_std)] *)
Definition std_threshold (E : Env) (dc_std : list float) : float :=
  F64.add (np_nanmedian E dc_std) (F64.mul (F64.of_Z 2) (np_nanstd E dc_std)).

(** The body of the loop of the first block (lines 203-210); only the count
    is kept.  The band 'dc_std' is found through its short name, which is
    also the name it is stored under. *)
Definition land_statistics (E : Env) (sw : Doppler) : result nat :=
  _ ← get_azimuth_time E sw;
  landmask ← land_mask sw;
  let count := count_true landmask in
  band ← get_band sw "dc_std";
  dc_std ← select band landmask;
  let std_thres := std_threshold E dc_std in
  pixelCoords ← select (np_where landmask)
                       (map (fun s => F64.leb s std_thres) dc_std);
  raw ← get_band sw "raw_fdg";
  dc ← take_at raw pixelCoords;
  let dc := List.filter F64.is_finite dc in
  Ok count.

(** The body of the loop of the second block (line 223). *)
Definition land_count (sw : Doppler) : result nat :=
  landmask ← land_mask sw;
  Ok (count_true landmask).

(** Lines 211-214 and 224-227.  The counts are whole numbers held in a
    float64 array, which is exact for any raster; [n_subswaths / 2] is the
    integer division of Python 2. *)
Definition reference_index (numberOfLandPixels : list nat) : nat :=
  if Nat.eqb (list_sum numberOfLandPixels) 0
  then (n_subswaths / 2)%nat
  else np_argmax numberOfLandPixels.

(** The land pixels of a subswath that pass the threshold on [dc_std]:
    [swath['raw_fdg'][landmask][dc_std <= std_thres]]. *)
Definition retained_land_pixels (E : Env) (sw : Doppler) : result (list float) :=
  landmask ← land_mask sw;
  band ← get_band sw "dc_std";
  dc_std ← select band landmask;
  let std_thres := std_threshold E dc_std in
  raw ← get_band sw "raw_fdg";
  land ← select raw landmask;
  select land (map (fun s => F64.leb s std_thres) dc_std).

(** Lines 215-218 and 228-231. *)
Definition reference_offset (E : Env) (sw : Doppler) : result float :=
  kept ← retained_land_pixels E sw;
  Ok (np_nanmean kept).

Definition land_bias_first (E : Env) (swath_data : list Doppler)
  : result (nat * float) :=
  numberOfLandPixels ←
    for_list (fun i => sw ← swath_at swath_data i; land_statistics E sw)
             (seq 0 n_subswaths);
  let i_ref := reference_index numberOfLandPixels in
  sw ← swath_at swath_data i_ref;
  dc_offset ← reference_offset E sw;
  Ok (i_ref, dc_offset).

Definition land_bias_second (E : Env) (swath_data : list Doppler)
  : result (nat * float) :=
  numberOfLandPixels ←
    for_list (fun i => sw ← swath_at swath_data i; land_count sw)
             (seq 0 n_subswaths);
  let i_ref := reference_index numberOfLandPixels in
  sw ← swath_at swath_data i_ref;
  dc_offset ← reference_offset E sw;
  Ok (i_ref, dc_offset).

(** ** The jumps between subswaths (lines 233-251) *)

(** [int(n ** (1/2.))]: the power with exponent one half is the binary64
    square root. *)
Definition histogram_bins (n : nat) : result Z :=
  match F64.trunc (F64.sqrt (F64.of_Z (Z.of_nat n))) with
  | Some b => Ok b
  | None => Raise ValueError
  end.

(** [np.floor] *)
Definition np_floor (x : float) : float :=
  match x, F64.floor x with
  | S754_finite _ _ _, Some z => F64.of_Z z
  | _, _ => x
  end.

(** [np.int(np.floor(nonempty ** (1/3.)) * 2 + 1)] *)
Definition smoothing_window (E : Env) (nonempty : nat) : result Z :=
  let root := libm_pow E (F64.of_Z (Z.of_nat nonempty))
                         (F64.div (F64.of_Z 1) (F64.of_Z 3)) in
  match F64.trunc (F64.add (F64.mul (np_floor root) (F64.of_Z 2)) (F64.of_Z 1)) with
  | Some N => Ok N
  | None => Raise ValueError
  end.

(** [np.ones(N) / N] *)
Definition box_kernel (N : Z) : result (list float) :=
  if (0 <? N)%Z
  then Ok (replicate (Z.to_nat N) (F64.div (F64.of_Z 1) (F64.of_Z N)))
  else Raise ValueError.

(** [(x[:-1] + x[1:]) / 2.] *)
Definition bin_centres (x : list float) : list float :=
  zip_with (fun a b => F64.div (F64.add a b) (F64.of_Z 2)) x (tail x).

(** Lines 244-249, from the differences over the overlap of two subswaths. *)
Definition jump_estimate (E : Env) (fdg_diff : list float) : result float :=
  let fdg_diff := List.filter F64.is_finite fdg_diff in
  bins ← histogram_bins (length fdg_diff);
  '(y, x) ← np_histogram E fdg_diff bins;
  N ← smoothing_window E (count_true (map (fun c => negb (Z.eqb c 0)) y));
  kernel ← box_kernel N;
  y_sm ← np_convolve_same E (map F64.of_Z y) kernel;
  top ← py_max y_sm;
  modes ← take_at (bin_centres x) (np_where (map (fun c => F64.eqb c top) y_sm));
  Ok (np_median E modes).

(** Lines 242-243: the differences where both subswaths cover the grid. *)
Definition overlap_difference (g g_prev : Geocoded) : result (list float) :=
  both ← elementwise F64.add (swathmask g) (swathmask g_prev);
  let cells := np_where (map (fun c => F64.eqb c (F64.of_Z 2)) both) in
  here ← take_at (band_1 g) cells;
  there ← take_at (band_1 g_prev) cells;
  elementwise F64.sub here there.

(** Lines 237-239. *)
Definition geocode_all (E : Env) (swath_data : list Doppler)
  : result (list Geocoded) :=
  for_list (fun i => sw ← swath_at swath_data i;
                     raw ← get_band sw "raw_fdg";
                     geocode E sw raw)
           (seq 0 n_subswaths).

(** Lines 240-249: [fdg_jumps] before accumulation, entry 0 left at zero. *)
Definition pair_jumps (E : Env) (geocoded_fdg : list Geocoded)
  : result (list float) :=
  for_each
    (fun i fdg_jumps =>
       match geocoded_fdg !! i, geocoded_fdg !! (i - 1)%nat with
       | Some g, Some g_prev =>
           fdg_diff ← overlap_difference g g_prev;
           jump ← jump_estimate E fdg_diff;
           Ok (<[i := jump]> fdg_jumps)
       | _, _ => Raise (KeyError "geocoded_fdg")
       end)
    (seq 1 (n_subswaths - 1))
    (replicate n_subswaths F64.zero).

(** Lines 250-251: [fdg_jumps = np.cumsum(fdg_jumps)] and
    [fdg_jumps -= fdg_jumps[i_ref]].  The entry read on the right is a
    scalar taken before the subtraction runs over the array. *)
Definition reference_jumps (fdg_jumps : list float) (i_ref : nat)
  : result (list float) :=
  let total := np_cumsum fdg_jumps in
  match total !! i_ref with
  | Some r => Ok (map (fun j => F64.sub j r) total)
  | None => Raise IndexError
  end.

Definition jump_stage (E : Env) (swath_data : list Doppler) (i_ref : nat)
  : result (list float) :=
  geocoded_fdg ← geocode_all E swath_data;
  fdg_jumps ← pair_jumps E geocoded_fdg;
  reference_jumps fdg_jumps i_ref.

(** ** The corrected bands (lines 253-268) *)

(** [raw_fdg - fdg_jumps[i] - dc_offset] *)
Definition corrected_fdg (raw_fdg : ndarray) (jump dc_offset : float) : ndarray :=
  map (fun p => F64.sub (F64.sub p jump) dc_offset) raw_fdg.

(** Lines 260-263: the band 'fww' when the subswath has it, the scalar 0
    ([None]) otherwise. *)
Definition wind_waves_band (sw : Doppler) : result (option ndarray) :=
  if has_band sw "fww"
  then fww ← get_band sw "fww"; Ok (Some fww)
  else Ok None.

(** [fdg - fww] *)
Definition subtract_wind_waves (fdg : ndarray) (fww : option ndarray)
  : result ndarray :=
  match fww with
  | Some w => elementwise F64.sub fdg w
  | None => Ok (map (fun p => F64.sub p F64.zero) fdg)
  end.

(** The body of the loop on its subswath. *)
Definition correct_bands (E : Env) (fdg_jumps : list float) (dc_offset : float)
    (i : nat) (sw : Doppler) : result Doppler :=
  raw_fdg ← get_band sw "raw_fdg";
  jump ← match fdg_jumps !! i with
         | Some j => Ok j
         | None => Raise IndexError
         end;
  let fdg := corrected_fdg raw_fdg jump dc_offset in
  let sw := add_band_wkv sw wkv_surface_velocity fdg in
  fww ← wind_waves_band sw;
  inci ← get_band sw "incidence_angle";
  shift ← subtract_wind_waves fdg fww;
  vcurrent ← radial_velocity E shift (radians inci);
  flags ← get_band sw "valid_doppler";
  vcurrent ← mask_invalid vcurrent flags;
  Ok (add_band_wkv sw wkv_radial_velocity vcurrent).

Definition correct_subswath (E : Env) (fdg_jumps : list float) (dc_offset : float)
    (i : nat) (swath_data : list Doppler) : result (list Doppler) :=
  sw ← swath_at swath_data i;
  sw' ← correct_bands E fdg_jumps dc_offset i sw;
  Ok (<[i := sw']> swath_data).

Definition band_corrector (E : Env) (fdg_jumps : list float) (dc_offset : float)
    (swath_data : list Doppler) : result (list Doppler) :=
  for_each (correct_subswath E fdg_jumps dc_offset) (seq 0 n_subswaths) swath_data.

(** ** Export (lines 270-357) *)

(** The bands drawn for a subswath. *)
Definition ingest_creates (wind : list WindRecord) : list string :=
  ["valid_doppler"; "valid_land_doppler"; "valid_sea_doppler"; "dca"; "fdg"]
  ++ match wind with
     | _ :: _ => ["fww"; "Ur"]
     | [] => []
     end.

Definition export_subswath (E : Env) (i : nat) (st : Locals) : result Locals :=
  sw ← swath_at (swath_data st) i;
  _ ← export_netcdf E i sw;
  sw ← reproject_leaflet E sw;
  let swaths := <[i := sw]> (swath_data st) in
  match get_band sw "incidence_angle" with
  | Raise _ =>
      Ok {| swath_data := swaths;
            is_corrupted := true;
            wind := wind st;
            marked := marked st ++ [i] |}
  | Ok _ =>
      w ← match wind st with
          | Some w => Ok w
          | None => Raise (NameError "wind")
          end;
      _ ← for_list (visualize E i sw) (ingest_creates w);
      Ok {| swath_data := swaths;
            is_corrupted := is_corrupted st;
            wind := wind st;
            marked := marked st |}
  end.

Definition export_stage (E : Env) (st : Locals) : result Locals :=
  for_each (export_subswath E) (seq 0 n_subswaths) st.

(** ** The whole of the data-product part *)

(** The subswaths with their corrected bands, before export. *)
Definition corrected_state (E : Env) (swaths : list Doppler) : result Locals :=
  st ← load_stage E {| swath_data := swaths; is_corrupted := false;
                       wind := None; marked := [] |};
  '(i_ref, dc_offset) ← land_bias_first E (swath_data st);
  '(i_ref, dc_offset) ← land_bias_second E (swath_data st);
  fdg_jumps ← jump_stage E (swath_data st) i_ref;
  swaths' ← band_corrector E fdg_jumps dc_offset (swath_data st);
  Ok {| swath_data := swaths'; is_corrupted := is_corrupted st;
        wind := wind st; marked := marked st |}.


(** [-pi * (fdg - fww) / (k * sin(theta))] at one pixel, [theta] the
    incidence angle [inci] in radians. *)
Definition velocity_at (E : Env) (fdg fww inci : float) : float :=
  F64.div (F64.mul (F64.neg F64.pi) (F64.sub fdg fww))
          (F64.mul wavenumber
                   (libm_sin E (F64.div (F64.mul inci F64.pi) (F64.of_Z 180)))).

(** The corrected state with the land-pixel bias computed once, as the
    specification asks of an implementation. *)
Definition corrected_state_once (E : Env) (swaths : list Doppler) : result Locals :=
  st ← load_stage E {| swath_data := swaths; is_corrupted := false;
                       wind := None; marked := [] |};
  '(i_ref, dc_offset) ← land_bias_second E (swath_data st);
  fdg_jumps ← jump_stage E (swath_data st) i_ref;
  swaths' ← band_corrector E fdg_jumps dc_offset (swath_data st);
  Ok {| swath_data := swaths'; is_corrupted := is_corrupted st;
        wind := wind st; marked := marked st |}.

(** What [get_or_create] hands back at its last line, next to the ghost
    list of the subswaths that were marked. *)
Record Outcome : Type := {
  success : bool;                (* [not is_corrupted] *)
  marked_corrupted : list nat;
  exported : list Doppler
}.

Definition create_data_products (E : Env) (swaths : list Doppler)
  : result Outcome :=
  st ← corrected_state E swaths;
  st ← export_stage E st;
  Ok {| success := negb (is_corrupted st);
        marked_corrupted := marked st;
        exported := swath_data st |}.

(** ** Reference collaborators

    Executable stand-ins for the collaborators, used to run the pipeline on
    small acquisitions.  The numpy reductions follow numpy's documented
    results; sine and power are polynomial and whole-number stand-ins for
    libm. *)

Module Reference.

Definition lit (n d : Z) : float := F64.div (F64.of_Z n) (F64.of_Z d).

(** Sine by its Taylor polynomial of degree seven. *)
Definition sin (x : float) : float :=
  let x2 := F64.mul x x in
  let x3 := F64.mul x2 x in
  let x5 := F64.mul x3 x2 in
  let x7 := F64.mul x5 x2 in
  F64.sub (F64.add (F64.sub x (F64.div x3 (F64.of_Z 6)))
                   (F64.div x5 (F64.of_Z 120)))
          (F64.div x7 (F64.of_Z 5040)).

Fixpoint icbrt_from (fuel : nat) (r n : Z) : Z :=
  match fuel with
  | O => r
  | S fuel' =>
      if ((r + 1) * (r + 1) * (r + 1) <=? n)%Z then icbrt_from fuel' (r + 1) n
      else r
  end.

(** Power for the exponent one third on whole numbers: the cube root
    rounded down. *)
Definition pow (x y : float) : float :=
  match F64.trunc x with
  | Some n =>
      if F64.eqb y (lit 1 3) then F64.of_Z (icbrt_from (Z.to_nat n) 0 n)
      else F64.nan
  | None => F64.nan
  end.

Fixpoint insert_sorted (x : float) (l : list float) : list float :=
  match l with
  | [] => [x]
  | y :: l' => if F64.leb x y then x :: l else y :: insert_sorted x l'
  end.

Definition sort (l : list float) : list float :=
  fold_right insert_sorted [] l.

Definition median (l : list float) : float :=
  if existsb F64.is_nan l then F64.nan
  else
    let s := sort l in
    let n := length s in
    match n with
    | O => F64.nan
    | _ =>
        if Nat.even n
        then match s !! (n / 2 - 1)%nat, s !! (n / 2)%nat with
             | Some a, Some b => F64.div (F64.add a b) (F64.of_Z 2)
             | _, _ => F64.nan
             end
        else match s !! (n / 2)%nat with
             | Some a => a
             | None => F64.nan
             end
    end.

Definition nanmedian (l : list float) : float := median (drop_nan l).

Definition nanstd (l : list float) : float :=
  let kept := drop_nan l in
  let n := F64.of_Z (Z.of_nat (length kept)) in
  let mean := F64.div (np_sum kept) n in
  let sq := map (fun x => let d := F64.sub x mean in F64.mul d d) kept in
  F64.sqrt (F64.div (np_sum sq) n).

Definition minimum (l : list float) : float :=
  match l with
  | [] => F64.zero
  | x :: l' => fold_left (fun m y => if F64.ltb y m then y else m) l' x
  end.

Definition maximum (l : list float) : float :=
  match l with
  | [] => F64.of_Z 1
  | x :: l' => fold_left (fun m y => if F64.ltb m y then y else m) l' x
  end.

(** Equal-width bins between the least and the largest sample. *)
Definition histogram (l : list float) (bins : Z)
  : result (list Z * list float) :=
  if (bins <? 1)%Z then Raise ValueError
  else
    let lo := minimum l in
    let hi := maximum l in
    let '(lo, hi) := if F64.eqb lo hi
                     then (F64.sub lo (lit 1 2), F64.add hi (lit 1 2))
                     else (lo, hi) in
    let n := Z.to_nat bins in
    let width := F64.sub hi lo in
    let edge k := if Nat.eqb k n then hi
                  else F64.add lo (F64.div (F64.mul (F64.of_Z (Z.of_nat k)) width)
                                           (F64.of_Z bins)) in
    let bin_of x :=
      match F64.trunc (F64.mul (F64.div (F64.sub x lo) width) (F64.of_Z bins)) with
      | Some k => Nat.min (Z.to_nat k) (n - 1)
      | None => O
      end in
    let hits := map bin_of l in
    Ok (map (fun k => Z.of_nat (length (List.filter (Nat.eqb k) hits))) (seq 0 n),
        map edge (seq 0 (S n))).

(** The full discrete convolution, entry [k]. *)
Definition convolve_at (a v : list float) (k : nat) : float :=
  np_sum (map (fun j => match a !! j, v !! (k - j)%nat with
                        | Some x, Some y => if Nat.leb j k then F64.mul x y else F64.zero
                        | _, _ => F64.zero
                        end)
              (seq 0 (length a))).

(** [mode='same']: the middle of the full convolution, as long as the
    longer operand. *)
Definition convolve_same (a v : list float) : result (list float) :=
  match a, v with
  | [], _ | _, [] => Raise ValueError
  | _, _ =>
      let '(a, v) := if Nat.ltb (length a) (length v) then (v, a) else (a, v) in
      let start := ((length v - 1) / 2)%nat in
      Ok (map (fun k => convolve_at a v (start + k)) (seq 0 (length a)))
  end.

(** The bands of a subswath on the common grid are the bands themselves,
    every cell covered. *)
Definition same_grid (sw : Doppler) (raw : ndarray) : result Geocoded :=
  Ok {| swathmask := map (fun _ => F64.of_Z 1) raw; band_1 := raw |}.

(** Reprojection for display loses the incidence angle of a subswath
    whose file is named "broken". *)
Definition reproject (sw : Doppler) : result Doppler :=
  if String.eqb (fileName sw) "broken"
  then Ok {| fileName := fileName sw;
             time_coverage_start := time_coverage_start sw;
             bands := List.filter
                        (fun b => negb (String.eqb (fst b) "incidence_angle"))
                        (bands sw) |}
  else Ok sw.

Definition env (catalogue : list WindRecord) : Env :=
  {| libm_sin := sin;
     libm_pow := pow;
     np_nanmedian := nanmedian;
     np_nanstd := nanstd;
     np_median := median;
     np_histogram := histogram;
     np_convolve_same := convolve_same;
     anomaly := fun sw => get_band sw "dc";
     polarization := fun _ => Ok "VV";
     wind_waves_doppler := fun sw _ _ =>
       dc ← get_band sw "dc"; Ok (map (fun _ => lit 1 2) dc);
     geophysical_doppler_shift := fun sw _ => get_band sw "dc";
     corrected_sigma0 := fun sw => get_band sw "sigma0";
     get_azimuth_time := fun _ => Ok tt;
     wind_catalogue := catalogue;
     geocode := same_grid;
     export_netcdf := fun _ _ => Ok tt;
     reproject_leaflet := reproject;
     visualize := fun _ _ _ => Ok tt |}.

(** A subswath of nine pixels, at 35 degrees of incidence, with a constant
    Doppler shift [hz]; the pixels flagged [land] are land, those flagged
    [valid] are valid. *)
Definition flags_of (l : list Z) : ndarray := map F64.of_Z l.

Definition subswath (name : string) (hz : Z) (valid land : list Z) : Doppler :=
  {| fileName := name;
     time_coverage_start := 1000000;
     bands := [ ("incidence_angle", replicate 9 (F64.of_Z 35));
                ("dc", map (fun k => F64.add (F64.of_Z hz) (lit k 8))
                           [0; 1; 2; 3; 4; 5; 6; 7; 8]%Z);
                ("dc_std", replicate 9 (lit 1 4));
                ("sigma0", replicate 9 (F64.of_Z 1));
                ("valid_doppler", flags_of valid);
                ("valid_land_doppler", flags_of land) ] |}.

Definition all_valid : list Z := [2; 2; 2; 2; 2; 2; 2; 2; 2]%Z.
Definition some_invalid : list Z := [2; 0; 2; 2; 1; 2; 2; 2; 0]%Z.
Definition no_land : list Z := [0; 0; 0; 0; 0; 0; 0; 0; 0]%Z.
Definition some_land : list Z := [1; 1; 0; 0; 0; 0; 0; 0; 1]%Z.

(** Five subswaths with biases 0, 5, 10, 15, 20 on 100 Hz; land in the
    fourth. *)
Definition acquisition : list Doppler :=
  [ subswath "s0" 100 all_valid no_land;
    subswath "s1" 105 some_invalid no_land;
    subswath "s2" 110 all_valid no_land;
    subswath "s3" 115 all_valid some_land;
    subswath "s4" 120 all_valid no_land ].

(** The same over open sea: no land pixel anywhere. *)
Definition sea_acquisition : list Doppler :=
  [ subswath "s0" 100 all_valid no_land;
    subswath "s1" 105 some_invalid no_land;
    subswath "s2" 110 all_valid no_land;
    subswath "s3" 115 all_valid no_land;
    subswath "s4" 120 all_valid no_land ].

(** The second subswath cannot be reprojected for display. *)
Definition acquisition_broken_export : list Doppler :=
  <[1%nat := subswath "broken" 105 some_invalid no_land]> acquisition.

(** The second subswath has no readable incidence angle. *)
Definition unreadable (sw : Doppler) : Doppler :=
  {| fileName := fileName sw;
     time_coverage_start := time_coverage_start sw;
     bands := List.filter
                (fun b => negb (String.eqb (fst b) "incidence_angle"))
                (bands sw) |}.

Definition acquisition_corrupted : list Doppler :=
  <[1%nat := unreadable (subswath "s1" 105 some_invalid no_land)]> acquisition.

Definition forecast : list WindRecord :=
  [ {| wind_time := 1000000 - 7200; wind_uris := ["gfs_a"] |};
    {| wind_time := 1000000 + 3600; wind_uris := ["gfs_b"] |};
    {| wind_time := 1000000 + 86400; wind_uris := ["gfs_c"] |} ].

(** The subswaths of an acquisition once read, without forecast wind. *)
Definition loaded (swaths : list Doppler) : list Doppler :=
  match load_stage (env []) {| swath_data := swaths; is_corrupted := false;
                               wind := None; marked := [] |} with
  | Ok st => swath_data st
  | Raise _ => []
  end.

(** The jumps and the offset the pipeline finds for [acquisition]. *)
Definition jumps : list float := map F64.of_Z [-15; -10; -5; 0; 5]%Z.


(** What the manager hands back for an acquisition, with forecast wind in
    the catalogue. *)
Definition outcome (swaths : list Doppler) : Outcome :=
  match create_data_products (env forecast) swaths with
  | Ok r => r
  | Raise _ => {| success := false; marked_corrupted := []; exported := [] |}
  end.

(** A fourth subswath with land whose incidence angle cannot be read but
    which already carries a band 'raw_fdg'. *)
Definition acquisition_unreadable_land : list Doppler :=
  <[3%nat := unreadable
               (add_band (subswath "s3" 115 all_valid some_land) "raw_fdg"
                         (replicate 9 (F64.of_Z 115)))]> acquisition.

(** The raw Doppler fields of the read subswaths on the common grid, and
    the jumps between neighbours before accumulation. *)
Definition geocoded (swaths : list Doppler) : list Geocoded :=
  match geocode_all (env []) (loaded swaths) with
  | Ok g => g
  | Raise _ => []
  end.

Definition steps : list float := map F64.of_Z [0; 5; 5; 5; 5]%Z.

End Reference.

(** The bin count as the specification words it: the square root of the
    number of samples, rounded to the nearest whole number. *)
Definition histogram_bins_as_specified (n : nat) : result Z :=
  match F64.round (F64.sqrt (F64.of_Z (Z.of_nat n))) with
  | Some b => Ok b
  | None => Raise ValueError
  end.

(** The jump estimate as the specification words it: the steps of
    [jump_estimate], the bin count rounded. *)
Definition jump_estimate_as_specified (E : Env) (fdg_diff : list float)
  : result float :=
  let fdg_diff := List.filter F64.is_finite fdg_diff in
  bins ← histogram_bins_as_specified (length fdg_diff);
  '(y, x) ← np_histogram E fdg_diff bins;
  N ← smoothing_window E (count_true (map (fun c => negb (Z.eqb c 0)) y));
  kernel ← box_kernel N;
  y_sm ← np_convolve_same E (map F64.of_Z y) kernel;
  top ← py_max y_sm;
  modes ← take_at (bin_centres x) (np_where (map (fun c => F64.eqb c top) y_sm));
  Ok (np_median E modes).

(** Thirteen differences, 0 to 12. *)
Definition thirteen_differences : list float :=
  map F64.of_Z [0; 1; 2; 3; 4; 5; 6; 7; 8; 9; 10; 11; 12]%Z.

(** Four estimates of 2^1022 accumulate to infinity at the last subswath. *)
Definition huge_jumps : list float :=
  F64.zero :: replicate 4 (S754_finite false 4503599627370496 970).

(** * The footprint and the entry point (lines 31-119)

    The part of [get_or_create] before the data products: the ingestion by
    the parent manager, the two early returns, the border of the five
    geolocation grids and the update of the stored footprint. *)

(** ** Border samples of a geolocation grid (lines 70-85) *)

(** A two-dimensional array as the list of its rows, all of one length. *)
Abbreviation grid := (list (list float)).

(** [g.shape[0]] and [g.shape[1]] *)
Definition grid_rows (g : grid) : nat := length g.
Definition grid_cols (g : grid) : nat :=
  match g with
  | [] => 0%nat
  | row :: _ => length row
  end.

Definition num_border_points : Z := 10.

(** [max(1, (n/2*2-1) / num_border_points)], the divisions being the floor
    divisions of Python 2 integers. *)
Definition border_step (n : nat) : nat :=
  Z.to_nat (Z.max 1 ((Z.of_nat n / 2 * 2 - 1) / num_border_points)).

(** The entries of [l] at positions [skip], [skip + step], ... *)
Fixpoint stride_from {A : Type} (skip step : nat) (l : list A) : list A :=
  match l with
  | [] => []
  | x :: l' =>
      match skip with
      | O => x :: stride_from (step - 1) step l'
      | S skip' => stride_from skip' step l'
      end
  end.

(** [l[0:-1:step]]: every [step]-th entry, the last entry of [l] left out. *)
Definition slice_but_last {A : Type} (step : nat) (l : list A) : list A :=
  stride_from 0 step (removelast l).

(** [rows[:, j]] on rows of length [cols]. *)
Definition column (rows : list (list float)) (cols j : nat) : result (list float) :=
  if Nat.ltb j cols
  then for_list (fun row : list float =>
                   match row !! j with
                   | Some x => Ok x
                   | None => Raise IndexError
                   end) rows
  else Raise IndexError.

Record Border : Type := {
  az_left : list float;    (* g[0:-1:astep, 0] *)
  az_right : list float;   (* g[0:-1:astep, -1] *)
  ra_upper : list float;   (* g[-1, 0:-1:rstep] *)
  ra_lower : list float    (* g[0, 0:-1:rstep] *)
}.

Definition border_of (g : grid) : result Border :=
  let astep := border_step (grid_rows g) in
  let rstep := border_step (grid_cols g) in
  left ← column (slice_but_last astep g) (grid_cols g) 0;
  right ← column (slice_but_last astep g) (grid_cols g) (grid_cols g - 1);
  upper ← match last g with
          | Some row => Ok (slice_but_last rstep row)
          | None => Raise IndexError
          end;
  lower ← match head g with
          | Some row => Ok (slice_but_last rstep row)
          | None => Raise IndexError
          end;
  Ok {| az_left := left; az_right := right; ra_upper := upper; ra_lower := lower |}.

(** Lines 86-92 and 98-104: the ring, from the borders of the five
    subswaths; [np.flipud] of a flat array is its reversal. *)
Definition ring_of (b : list Border) : result (list float) :=
  match b with
  | [b0; b1; b2; b3; b4] =>
      Ok (az_left b0 ++ ra_upper b0 ++ ra_upper b1 ++ ra_upper b2 ++ ra_upper b3
          ++ ra_upper b4 ++ rev (az_right b4) ++ rev (ra_lower b4)
          ++ rev (ra_lower b3) ++ rev (ra_lower b2) ++ rev (ra_lower b1)
          ++ rev (ra_lower b0))
  | _ => Raise (KeyError "subswath")
  end.

(** The functions of Python's [math] module the manager calls. *)
Record Libm : Type := {
  m_sin : float -> float;
  m_cos : float -> float;
  m_acos : float -> float;
  m_copysign : float -> float -> float
}.

(** Lines 96-97: [copysign(acos(cos(llo * pi / 180.)) / pi * 180,
    sin(llo * pi / 180.))] *)
Definition correct_longitude (M : Libm) (llo : float) : float :=
  let x := F64.div (F64.mul llo F64.pi) (F64.of_Z 180) in
  m_copysign M
    (F64.mul (F64.div (m_acos M (m_cos M x)) F64.pi) (F64.of_Z 180))
    (m_sin M x).

(** Lines 70-106: the vertices of the footprint, longitude first.  The loop
    of lines 95-97 writes each entry of [lons] after reading it, which is a
    map; [zip] stops at the shorter of its two arguments. *)
Definition footprint_vertices (M : Libm) (grids : list (grid * grid))
  : result (list (float * float)) :=
  lon_borders ← for_list (fun g : grid * grid => border_of (fst g)) grids;
  lat_borders ← for_list (fun g : grid * grid => border_of (snd g)) grids;
  lons ← ring_of lon_borders;
  lats ← ring_of lat_borders;
  Ok (zip (map (correct_longitude M) lons) lats).

(** ** The entry point *)

Section EntryPoint.

Variable Geom : Type.

(** A catalogue entry with the geometry of its geographic location. *)
Record Dataset : Type := {
  entry_title : string;
  geometry : Geom
}.

(** What the parent manager hands back. *)
Inductive Ingested : Type :=
| A_Dataset (ds : Dataset)
| Not_A_Dataset.

(** [ds.save()] and [geoloc.save()] *)
Inductive Write : Type :=
| SaveDataset (title : string)
| SaveGeolocation (g : Geom).

Record Services : Type := {
  libm : Libm;
  (* [super(DatasetManager, self).get_or_create(uri)] *)
  super_get_or_create : string -> result (Ingested * bool);
  (* [Doppler(nansat_filename(uri), subswath=i)] *)
  open_subswath : string -> nat -> result Doppler;
  (* [WKTReader().read(n.get_border_wkt())] *)
  get_border : Doppler -> result Geom;
  get_geolocation_grids : Doppler -> result (grid * grid);
  (* [WKTReader().read('POLYGON((lon lat,...))')] *)
  read_polygon : list (float * float) -> result Geom;
  geom_area : Geom -> float;
  (* [==] on geometries; [!=] is its negation *)
  geom_eqb : Geom -> Geom -> bool
}.

(** What [get_or_create] returns, with the writes it made on the way and
    the data products when it got that far. *)
Record Returned : Type := {
  returned_ds : Ingested;
  returned_flag : bool;
  writes : list Write;
  products : option Outcome
}.

Definition get_or_create (V : Services) (E : Env) (uri : string) (reprocess : bool)
  : result Returned :=
  '(ingested, created) ← super_get_or_create V uri;
  match ingested with
  | Not_A_Dataset =>
      Ok {| returned_ds := ingested; returned_flag := false;
            writes := []; products := None |}
  | A_Dataset ds =>
      let ds := {| entry_title := "SAR Doppler"; geometry := geometry ds |} in
      let saved := [SaveDataset "SAR Doppler"] in
      n ← open_subswath V uri 0;
      gg ← get_border V n;
      if F64.ltb (geom_area V gg) (geom_area V (geometry ds)) && negb reprocess
      then Ok {| returned_ds := A_Dataset ds; returned_flag := false;
                 writes := saved; products := None |}
      else
        read ← for_list (fun i => sw ← open_subswath V uri i;
                                  g ← get_geolocation_grids V sw;
                                  Ok (sw, g))
                        (seq 0 n_subswaths);
        let swath_data := map fst read in
        vertices ← footprint_vertices (libm V) (map snd read);
        new_geometry ← read_polygon V vertices;
        if geom_eqb V (geometry ds) new_geometry && negb reprocess
        then Ok {| returned_ds := A_Dataset ds; returned_flag := false;
                   writes := saved; products := None |}
        else
          let changed := negb (geom_eqb V (geometry ds) new_geometry) in
          let ds := if changed
                    then {| entry_title := entry_title ds; geometry := new_geometry |}
                    else ds in
          let saved := if changed then saved ++ [SaveGeolocation new_geometry]
                       else saved in
          outcome ← create_data_products E swath_data;
          Ok {| returned_ds := A_Dataset ds; returned_flag := success outcome;
                writes := saved; products := Some outcome |}
  end.

(** The services as a later call finds them when nothing but the catalogue
    has changed: the parent manager hands back the entry [ingested], not
    created anew. *)
Definition with_catalogue (V : Services) (ingested : Ingested) : Services :=
  {| libm := libm V;
     super_get_or_create := fun _ => Ok (ingested, false);
     open_subswath := open_subswath V;
     get_border := get_border V;
     get_geolocation_grids := get_geolocation_grids V;
     read_polygon := read_polygon V;
     geom_area := geom_area V;
     geom_eqb := geom_eqb V |}.

End EntryPoint.

Arguments A_Dataset {Geom} ds.
Arguments Not_A_Dataset {Geom}.
Arguments SaveDataset {Geom} title.
Arguments SaveGeolocation {Geom} g.
Arguments Build_Dataset {Geom} _ _.
Arguments entry_title {Geom} _.
Arguments geometry {Geom} _.
Arguments Build_Returned {Geom} _ _ _ _.
Arguments returned_ds {Geom} _.
Arguments returned_flag {Geom} _.
Arguments writes {Geom} _.
Arguments products {Geom} _.
Arguments get_or_create {Geom} V E uri reprocess.
Arguments with_catalogue {Geom} V ingested.

(** ** The sample of the first bias block (lines 203-210) *)

(** The array [dc] of the first block, which [land_statistics] computes
    and drops. *)
Definition land_sample (E : Env) (sw : Doppler) : result (list float) :=
  _ ← get_azimuth_time E sw;
  landmask ← land_mask sw;
  band ← get_band sw "dc_std";
  dc_std ← select band landmask;
  let std_thres := std_threshold E dc_std in
  pixelCoords ← select (np_where landmask)
                       (map (fun s => F64.leb s std_thres) dc_std);
  raw ← get_band sw "raw_fdg";
  dc ← take_at raw pixelCoords;
  Ok (List.filter F64.is_finite dc).

(** ** A small scene

    Stand-ins for the services of the entry point and a few states of the
    reference acquisition, used to run the manager from end to end. *)

Module Scene.

(** Cosine and arc cosine by short polynomials, and the sign copy of IEEE
    754 (a NaN counts as positive). *)
Definition cos (x : float) : float :=
  let x2 := F64.mul x x in
  F64.add (F64.sub (F64.of_Z 1) (F64.div x2 (F64.of_Z 2)))
          (F64.div (F64.mul x2 x2) (F64.of_Z 24)).

Definition acos (x : float) : float :=
  F64.sub (F64.div F64.pi (F64.of_Z 2))
          (F64.add x (F64.div (F64.mul x (F64.mul x x)) (F64.of_Z 6))).

Definition sign_of (x : float) : bool :=
  match x with
  | S754_zero s | S754_infinity s | S754_finite s _ _ => s
  | S754_nan => false
  end.

Definition copysign (x y : float) : float :=
  match x with
  | S754_zero _ => S754_zero (sign_of y)
  | S754_infinity _ => S754_infinity (sign_of y)
  | S754_finite _ m e => S754_finite (sign_of y) m e
  | S754_nan => S754_nan
  end.

Definition math : Libm :=
  {| m_sin := Reference.sin; m_cos := cos; m_acos := acos; m_copysign := copysign |}.

(** A grid of [rows] by [cols] points, the point of row [i] and column [j]
    at [base + i * down + j * right]. *)
Definition ramp (rows cols : nat) (base down right : Z) : grid :=
  map (fun i => map (fun j => F64.of_Z (base + Z.of_nat i * down + Z.of_nat j * right))
                    (seq 0 cols))
      (seq 0 rows).

(** Eleven rows of twelve points; subswath [i] lies twelve degrees east of
    subswath [i - 1]. *)
Definition lon_grid (i : nat) : grid := ramp 11 12 (Z.of_nat i * 12) 0 1.
Definition lat_grid : grid := ramp 11 12 60 1 0.

Definition grids : list (grid * grid) :=
  map (fun i => (lon_grid i, lat_grid)) (seq 0 n_subswaths).

(** Geometries are vertex lists, equal when they hold the same numbers;
    the area is a stand-in, the number of vertices. *)
Definition same_float (x y : float) : bool :=
  match x, y with
  | S754_zero s, S754_zero s' => Bool.eqb s s'
  | S754_infinity s, S754_infinity s' => Bool.eqb s s'
  | S754_nan, S754_nan => true
  | S754_finite s m e, S754_finite s' m' e' =>
      Bool.eqb s s' && Pos.eqb m m' && Z.eqb e e'
  | _, _ => false
  end.

Fixpoint same_vertices (g g' : list (float * float)) : bool :=
  match g, g' with
  | [], [] => true
  | (x, y) :: g, (x', y') :: g' =>
      same_float x x' && same_float y y' && same_vertices g g'
  | _, _ => false
  end.

Definition subswath_number (sw : Doppler) : nat :=
  if String.eqb (fileName sw) "s1" then 1
  else if String.eqb (fileName sw) "s2" then 2
  else if String.eqb (fileName sw) "s3" then 3
  else if String.eqb (fileName sw) "s4" then 4
  else 0.

Definition services (stored : list (float * float))
  : Services (list (float * float)) :=
  {| libm := math;
     super_get_or_create := fun _ =>
       Ok (A_Dataset {| entry_title := "ASAR"; geometry := stored |}, true);
     open_subswath := fun _ i => swath_at Reference.acquisition i;
     get_border := fun _ => Ok [(F64.of_Z 0, F64.of_Z 60)];
     get_geolocation_grids := fun sw => Ok (lon_grid (subswath_number sw), lat_grid);
     read_polygon := fun vertices => Ok vertices;
     geom_area := fun g => F64.of_Z (Z.of_nat (length g));
     geom_eqb := same_vertices |}.

(** What the manager returns on the scene, first with an empty stored
    footprint. *)
Definition first_call : Returned (list (float * float)) :=
  match get_or_create (services []) (Reference.env Reference.forecast) "asar" false with
  | Ok r => r
  | Raise _ => {| returned_ds := Not_A_Dataset; returned_flag := false;
                  writes := []; products := None |}
  end.

Definition empty_swath : Doppler :=
  {| fileName := ""; time_coverage_start := 0; bands := [] |}.

Definition nth_swath (swaths : list Doppler) (i : nat) : Doppler :=
  match swaths !! i with
  | Some sw => sw
  | None => empty_swath
  end.

Definition no_locals : Locals :=
  {| swath_data := []; is_corrupted := false; wind := None; marked := [] |}.

Definition start (swaths : list Doppler) : Locals :=
  {| swath_data := swaths; is_corrupted := false; wind := None; marked := [] |}.

(** The states of a run on [swaths]: after the reading loop, with the
    corrected bands, and after the export loop. *)
Definition read_state (catalogue : list WindRecord) (swaths : list Doppler) : Locals :=
  match load_stage (Reference.env catalogue) (start swaths) with
  | Ok st => st
  | Raise _ => no_locals
  end.

Definition corrected_locals (catalogue : list WindRecord) (swaths : list Doppler)
  : Locals :=
  match corrected_state (Reference.env catalogue) swaths with
  | Ok st => st
  | Raise _ => no_locals
  end.



(** One subswath of the reference acquisition as the reading loop leaves
    it. *)
Definition derived (catalogue : list WindRecord) (sw : Doppler) : Doppler :=
  match derive_doppler (Reference.env catalogue) sw with
  | Ok (sw', _) => sw'
  | Raise _ => empty_swath
  end.

Definition second_subswath : Doppler := nth_swath Reference.acquisition 1.

Definition land_subswath : Doppler :=
  nth_swath (Reference.loaded Reference.acquisition) 3.

Definition land_dc : list float :=
  match land_sample (Reference.env []) land_subswath with
  | Ok dc => dc
  | Raise _ => []
  end.

Definition footprint : list (float * float) :=
  match footprint_vertices math grids with
  | Ok vertices => vertices
  | Raise _ => []
  end.

End Scene.

(** * Properties *)

(** ** The result monad *)

Lemma bind_Ok {A B : Type} (r : result A) (k : A -> result B) (b : B) :
  r ≫= k = Ok b -> exists a, r = Ok a /\ k a = Ok b.
Proof.
  destruct r as [a|e]; simpl; intros H; [eauto | discriminate].
Qed.

Lemma bind_Raise_l {A B : Type} (r : result A) (k : A -> result B) (e : exn) :
  r = Raise e -> r ≫= k = Raise e.
Proof. intros ->. reflexivity. Qed.

Lemma elementwise_Ok {A B C : Type} (f : A -> B -> C) a b c :
  elementwise f a b = Ok c -> length a = length b /\ c = zip_with f a b.
Proof.
  unfold elementwise. destruct (Nat.eqb_spec (length a) (length b)); [|discriminate].
  intros [= <-]. auto.
Qed.

Lemma mask_assign_Ok {A : Type} (a : list A) mask x c :
  mask_assign a mask x = Ok c ->
  length a = length mask /\
  c = zip_with (fun p (m : bool) => if m then x else p) a mask.
Proof.
  unfold mask_assign. destruct (Nat.eqb_spec (length a) (length mask)); [|discriminate].
  intros [= <-]. auto.
Qed.

(** ** Binary64 facts *)

Lemma sub_nan_r (x : float) : F64.sub x F64.nan = F64.nan.
Proof. destruct x; reflexivity. Qed.

Lemma sub_nan_l (x : float) : F64.sub F64.nan x = F64.nan.
Proof. destruct x; reflexivity. Qed.

Lemma sub_self (x : float) :
  F64.sub x x = if F64.is_finite x then F64.zero else F64.nan.
Proof.
  destruct x as [[]|[]| |s m e]; try reflexivity.
  unfold F64.sub, SFsub. rewrite Z.sub_diag. reflexivity.
Qed.

(** ** C4: the wavenumber *)

(** C4 (as the code has it).  The wavenumber is the constant
    [carrier_frequency / speed_of_light * 2 * pi] with carrier frequency
    5331004416 and speed of light 299792458, the binary64 number
    0x1.beeb19d13be39p+6 (about 111.73), and it is the [k] of every radial
    velocity the manager computes. *)
Theorem wavenumber_is_carrier_over_light :
  wavenumber = wavenumber_of_carrier /\
  wavenumber = S754_finite false 7862270983126585 (-46) /\
  forall E shift theta,
    radial_velocity E shift theta =
    elementwise F64.div
      (map (F64.mul (F64.neg F64.pi)) shift)
      (map (fun t => F64.mul wavenumber_of_carrier (libm_sin E t)) theta).
Proof.
  split; [reflexivity|]. split; [vm_compute; reflexivity|].
  intros. reflexivity.
Qed.

(** C4 (as stated) fails: speed of light over carrier frequency times two
    pi is about 0.3533, not the constant of the code. *)
Lemma wavenumber_is_not_light_over_carrier :
  wavenumber_as_specified = S754_finite false 6365188872226214 (-54) /\
  wavenumber <> wavenumber_as_specified.
Proof.
  split; [vm_compute; reflexivity|].
  vm_compute. discriminate.
Qed.

(** ** Loops over the five subswaths *)

Lemma for_list_Ok {A B : Type} (f : A -> result B) (l : list A) (ys : list B) :
  for_list f l = Ok ys -> Forall2 (fun x y => f x = Ok y) l ys.
Proof.
  revert ys. induction l as [|x l IH]; simpl; intros ys H.
  - injection H as <-. constructor.
  - apply bind_Ok in H as (y & Hy & H).
    apply bind_Ok in H as (ys' & Hys & H).
    injection H as <-. constructor; auto.
Qed.

Lemma for_list_ext_Ok {A B : Type} (f g : A -> result B) (l : list A) (ys : list B) :
  (forall x y, f x = Ok y -> g x = Ok y) ->
  for_list f l = Ok ys -> for_list g l = Ok ys.
Proof.
  intros Hfg. revert ys. induction l as [|x l IH]; simpl; intros ys H; [exact H|].
  apply bind_Ok in H as (y & Hy & H).
  apply bind_Ok in H as (ys' & Hys & H).
  rewrite (Hfg _ _ Hy). simpl. rewrite (IH _ Hys). exact H.
Qed.

Lemma for_list_seq_lookup {B : Type} (f : nat -> result B) (n : nat) (ys : list B) :
  for_list f (seq 0 n) = Ok ys ->
  length ys = n /\
  forall i, (i < n)%nat -> exists y, f i = Ok y /\ ys !! i = Some y.
Proof.
  intros H. apply for_list_Ok in H.
  pose proof (Forall2_length _ _ _ H) as Hlen. rewrite length_seq in Hlen.
  split; [lia|]. intros i Hi.
  destruct (lookup_lt_is_Some_2 ys i ltac:(lia)) as [y Hy].
  exists y. split; [|exact Hy].
  eapply (Forall2_lookup_lr _ _ _ i i y) in H; eauto.
  apply lookup_seq. lia.
Qed.

(** ** C9: the reference subswath *)

Lemma argmax_from_spec (l pre : list nat) (best_i best : nat) :
  pre !! best_i = Some best ->
  (forall j n, pre !! j = Some n -> (n <= best)%nat) ->
  (forall j n, (j < best_i)%nat -> pre !! j = Some n -> (n < best)%nat) ->
  exists m,
    (pre ++ l) !! argmax_from best_i best (length pre) l = Some m /\
    (forall j n, (pre ++ l) !! j = Some n -> (n <= m)%nat) /\
    (forall j n, (j < argmax_from best_i best (length pre) l)%nat ->
                 (pre ++ l) !! j = Some n -> (n < m)%nat).
Proof.
  revert pre best_i best. induction l as [|x l IH]; intros pre best_i best Hb Hmax Hfirst.
  - simpl. rewrite app_nil_r. eauto.
  - simpl. rewrite (cons_middle x pre l), app_assoc.
    replace (S (length pre)) with (length (pre ++ [x]))
      by (rewrite length_app; simpl; lia).
    destruct (Nat.ltb_spec best x) as [Hlt|Hge].
    + apply IH.
      * rewrite lookup_app_r by lia. rewrite Nat.sub_diag. reflexivity.
      * intros j n Hj. apply lookup_app_Some in Hj as [Hj|[Hlen Hj]].
        -- specialize (Hmax _ _ Hj). lia.
        -- apply list_lookup_singleton_Some in Hj as [_ <-]. lia.
      * intros j n Hlt' Hj. rewrite lookup_app_l in Hj by lia.
        specialize (Hmax _ _ Hj). lia.
    + apply IH.
      * rewrite lookup_app_l; [exact Hb|]. eapply lookup_lt_Some; eauto.
      * intros j n Hj. apply lookup_app_Some in Hj as [Hj|[Hlen Hj]].
        -- eauto.
        -- apply list_lookup_singleton_Some in Hj as [_ <-]. lia.
      * intros j n Hlt' Hj.
        assert (best_i < length pre)%nat by (eapply lookup_lt_Some; eauto).
        rewrite lookup_app_l in Hj by lia. eauto.
Qed.

(** [np.argmax] of a non-empty list is the first position of its largest
    entry. *)
Lemma np_argmax_spec (l : list nat) :
  l <> [] ->
  exists m,
    l !! np_argmax l = Some m /\
    (forall j n, l !! j = Some n -> (n <= m)%nat) /\
    (forall j n, (j < np_argmax l)%nat -> l !! j = Some n -> (n < m)%nat).
Proof.
  destruct l as [|x l]; [congruence|]. intros _.
  apply (argmax_from_spec l [x] 0 x).
  - reflexivity.
  - intros j n Hj. apply list_lookup_singleton_Some in Hj as [_ <-]. lia.
  - intros j n Hj. lia.
Qed.

Lemma list_sum_zero (l : list nat) :
  list_sum l = 0%nat <-> forall j n, l !! j = Some n -> n = 0%nat.
Proof.
  induction l as [|x l IH]; simpl.
  - split; [intros _ j n H; discriminate | reflexivity].
  - split.
    + intros H [|j] n Hj; simpl in Hj.
      * injection Hj as <-. lia.
      * apply (proj1 IH ltac:(lia) j n Hj).
    + intros H. pose proof (H 0%nat x eq_refl) as ->.
      apply IH. intros j n Hj. apply (H (S j) n Hj).
Qed.

(** C9.  The reference subswath of the (second, deciding) bias block is the
    first index with the largest count of land pixels (flag equal to 1) among
    the five subswaths; when all five counts are zero it is index 2. *)
Theorem reference_is_argmax_or_middle (E : Env) (swaths : list Doppler)
    (i_ref : nat) (dc_offset : float) :
  land_bias_second E swaths = Ok (i_ref, dc_offset) ->
  exists counts : list nat,
    length counts = 5%nat /\
    (forall i, (i < 5)%nat ->
       exists sw flags,
         swaths !! i = Some sw /\
         get_band sw "valid_land_doppler" = Ok flags /\
         counts !! i =
           Some (length (List.filter (fun f => F64.eqb f (F64.of_Z 1)) flags))) /\
    ((forall i n, counts !! i = Some n -> n = 0%nat) -> i_ref = 2%nat) /\
    ((exists i n, counts !! i = Some n /\ n <> 0%nat) ->
       exists m,
         counts !! i_ref = Some m /\
         (forall j n, counts !! j = Some n -> (n <= m)%nat) /\
         (forall j n, (j < i_ref)%nat -> counts !! j = Some n -> (n < m)%nat)).
Proof.
  intros H. unfold land_bias_second in H.
  apply bind_Ok in H as (counts & Hcounts & H).
  apply bind_Ok in H as (sw_ref & Hsw & H).
  apply bind_Ok in H as (off & Hoff & H).
  injection H as Hi _.
  apply for_list_seq_lookup in Hcounts as [Hlen Hcounts].
  exists counts. split; [exact Hlen|]. split; [|split].
  - intros i Hi'. destruct (Hcounts i Hi') as (n & Hn & Hlook).
    apply bind_Ok in Hn as (sw & Hsw' & Hn).
    unfold swath_at in Hsw'. destruct (swaths !! i) as [sw'|] eqn:Hsi; [|discriminate].
    injection Hsw' as ->.
    unfold land_count, land_mask in Hn.
    apply bind_Ok in Hn as (mask & Hmask & Hn).
    apply bind_Ok in Hmask as (flags & Hflags & Hmask).
    injection Hmask as <-. injection Hn as <-.
    exists sw, flags. split; [reflexivity|]. split; [exact Hflags|].
    rewrite Hlook. f_equal. unfold count_true.
    clear. induction flags as [|f flags IH]; simpl; [reflexivity|].
    destruct (F64.eqb f (F64.of_Z 1)); simpl; congruence.
  - intros Hzero. apply list_sum_zero in Hzero.
    unfold reference_index in Hi. rewrite Hzero in Hi. simpl in Hi. congruence.
  - intros (i & n & Hin & Hn).
    unfold reference_index in Hi.
    destruct (Nat.eqb_spec (list_sum counts) 0) as [Hz|Hnz].
    + exfalso. apply Hn. eapply list_sum_zero; eauto.
    + subst i_ref. apply np_argmax_spec. intros ->. discriminate.
Qed.

Lemma reference_is_argmax_or_middle_witness :
  exists counts : list nat,
    length counts = 5%nat /\
    (forall i, (i < 5)%nat ->
       exists sw flags,
         Reference.loaded Reference.acquisition !! i = Some sw /\
         get_band sw "valid_land_doppler" = Ok flags /\
         counts !! i =
           Some (length (List.filter (fun f => F64.eqb f (F64.of_Z 1)) flags))) /\
    ((forall i n, counts !! i = Some n -> n = 0%nat) -> 3%nat = 2%nat) /\
    ((exists i n, counts !! i = Some n /\ n <> 0%nat) ->
       exists m,
         counts !! 3%nat = Some m /\
         (forall j n, counts !! j = Some n -> (n <= m)%nat) /\
         (forall j n, (j < 3)%nat -> counts !! j = Some n -> (n < m)%nat)).
Proof.
  apply (reference_is_argmax_or_middle (Reference.env [])
           (Reference.loaded Reference.acquisition)
           3 (Reference.lit 923 8)).
  vm_compute. reflexivity.
Defined.

(** ** C10: the two bias blocks *)

Lemma land_statistics_count (E : Env) (sw : Doppler) (n : nat) :
  land_statistics E sw = Ok n -> land_count sw = Ok n.
Proof.
  unfold land_statistics, land_count. intros H.
  apply bind_Ok in H as (t & _ & H).
  apply bind_Ok in H as (landmask & Hmask & H).
  rewrite Hmask. simpl.
  apply bind_Ok in H as (band & _ & H).
  apply bind_Ok in H as (dc_std & _ & H).
  apply bind_Ok in H as (pixelCoords & _ & H).
  apply bind_Ok in H as (raw & _ & H).
  apply bind_Ok in H as (dc & _ & H).
  exact H.
Qed.

(** C10.  Whenever the first bias block yields a reference index and an
    offset, the second block yields the same two values; and the corrected
    bands of a run are those of a run that computes the bias once, with
    the second block only. *)
Theorem bias_blocks_agree (E : Env) (swaths : list Doppler) :
  (forall r, land_bias_first E swaths = Ok r -> land_bias_second E swaths = Ok r) /\
  (forall st, corrected_state E swaths = Ok st ->
              corrected_state_once E swaths = Ok st).
Proof.
  split.
  - intros r H. unfold land_bias_first in H. unfold land_bias_second.
    apply bind_Ok in H as (counts & Hcounts & H).
    erewrite for_list_ext_Ok; [exact H| |exact Hcounts].
    intros i n Hn. apply bind_Ok in Hn as (sw & Hsw & Hn).
    rewrite Hsw. simpl. eapply land_statistics_count; eauto.
  - intros st H. unfold corrected_state in H. unfold corrected_state_once.
    apply bind_Ok in H as (st1 & Hload & H). rewrite Hload. simpl.
    apply bind_Ok in H as ([i1 d1] & _ & H). exact H.
Qed.

Lemma bias_blocks_agree_witness :
  land_bias_first (Reference.env []) (Reference.loaded Reference.acquisition)
  = Ok (3%nat, Reference.lit 923 8) /\
  land_bias_second (Reference.env []) (Reference.loaded Reference.acquisition)
  = Ok (3%nat, Reference.lit 923 8).
Proof.
  assert (H : land_bias_first (Reference.env [])
                (Reference.loaded Reference.acquisition)
              = Ok (3%nat, Reference.lit 923 8)) by (vm_compute; reflexivity).
  split; [exact H|].
  exact (proj1 (bias_blocks_agree (Reference.env [])
                  (Reference.loaded Reference.acquisition)) _ H).
Defined.

(** ** Band stores *)

Lemma find_band_app (name : string) (bs : list (string * ndarray))
    (n : string) (a : ndarray) :
  find_band name (bs ++ [(n, a)]) =
  match find_band name bs with
  | Some x => Some x
  | None => if String.eqb n name then Some a else None
  end.
Proof.
  induction bs as [|[m b] bs IH]; simpl; [reflexivity|].
  destruct (String.eqb m name); [reflexivity | exact IH].
Qed.

Lemma get_band_add_other (sw : Doppler) (n name : string) (a : ndarray) :
  String.eqb n name = false ->
  get_band (add_band sw n a) name = get_band sw name.
Proof.
  intros Hne. unfold get_band, add_band. simpl.
  rewrite find_band_app, Hne. destruct (find_band name (bands sw)); reflexivity.
Qed.

Lemma has_band_add_other (sw : Doppler) (n name : string) (a : ndarray) :
  String.eqb n name = false ->
  has_band (add_band sw n a) name = has_band sw name.
Proof.
  intros Hne. unfold has_band, add_band. simpl.
  rewrite find_band_app, Hne. destruct (find_band name (bands sw)); reflexivity.
Qed.

Lemma get_band_Ok (sw : Doppler) (name : string) (a : ndarray) :
  get_band sw name = Ok a <-> find_band name (bands sw) = Some a.
Proof.
  unfold get_band. destruct (find_band name (bands sw)); split; congruence.
Qed.

Lemma swath_at_Ok (swaths : list Doppler) (i : nat) (sw : Doppler) :
  swath_at swaths i = Ok sw <-> swaths !! i = Some sw.
Proof.
  unfold swath_at. destruct (swaths !! i); split; congruence.
Qed.

(** ** Loops that rewrite one subswath per turn *)

Lemma for_each_inv {S : Type} (body : nat -> S -> result S) (I : nat -> S -> Prop)
    (a n : nat) (s s' : S) :
  I a s ->
  (forall k s1 s2, (a <= k < a + n)%nat -> I k s1 -> body k s1 = Ok s2 -> I (Datatypes.S k) s2) ->
  for_each body (seq a n) s = Ok s' ->
  I (a + n)%nat s'.
Proof.
  revert a s. induction n as [|n IH]; intros a s Hs Hstep H; simpl in H.
  - injection H as <-. rewrite Nat.add_0_r. exact Hs.
  - apply bind_Ok in H as (s1 & H1 & H).
    replace (a + Datatypes.S n)%nat with (Datatypes.S a + n)%nat by lia.
    apply (IH (Datatypes.S a) s1).
    + apply (Hstep a s s1); [lia | exact Hs | exact H1].
    + intros k s2 s3 Hk. apply Hstep. lia.
    + exact H.
Qed.

Lemma for_each_update (f : nat -> Doppler -> result Doppler) (n : nat)
    (s0 s' : list Doppler) :
  for_each (fun i s => sw ← swath_at s i; sw' ← f i sw; Ok (<[i := sw']> s))
           (seq 0 n) s0 = Ok s' ->
  length s' = length s0 /\
  (forall i, (i < n)%nat ->
     exists sw sw', s0 !! i = Some sw /\ f i sw = Ok sw' /\ s' !! i = Some sw') /\
  (forall i, (n <= i)%nat -> s' !! i = s0 !! i).
Proof.
  intros H.
  apply (for_each_inv _
           (fun k s =>
              length s = length s0 /\
              (forall i, (i < k)%nat ->
                 exists sw sw', s0 !! i = Some sw /\ f i sw = Ok sw' /\ s !! i = Some sw') /\
              (forall i, (k <= i)%nat -> s !! i = s0 !! i)) 0 n s0 s') in H.
  - exact H.
  - split; [reflexivity|]. split; [intros i Hi; lia | reflexivity].
  - intros k s1 s2 Hk (Hlen & Hdone & Hrest) Hbody.
    apply bind_Ok in Hbody as (sw & Hsw & Hbody).
    apply bind_Ok in Hbody as (sw' & Hf & Hbody).
    injection Hbody as <-. apply swath_at_Ok in Hsw.
    assert (k < length s1)%nat by (eapply lookup_lt_Some; eauto).
    split; [rewrite length_insert; exact Hlen|]. split.
    + intros i Hi. destruct (decide (i = k)) as [->|Hne].
      * exists sw, sw'. rewrite <- Hrest by lia.
        split; [exact Hsw|]. split; [exact Hf|].
        apply list_lookup_insert_eq. assumption.
      * destruct (Hdone i ltac:(lia)) as (x & x' & ? & ? & ?).
        exists x, x'. rewrite list_lookup_insert_ne by congruence. auto.
    + intros i Hi. rewrite list_lookup_insert_ne by lia. apply Hrest. lia.
Qed.

Lemma band_corrector_Ok (E : Env) (fdg_jumps : list float) (dc_offset : float)
    (swaths swaths' : list Doppler) :
  band_corrector E fdg_jumps dc_offset swaths = Ok swaths' ->
  forall i, (i < n_subswaths)%nat ->
    exists sw sw',
      swaths !! i = Some sw /\
      correct_bands E fdg_jumps dc_offset i sw = Ok sw' /\
      swaths' !! i = Some sw'.
Proof.
  intros H. apply (for_each_update (correct_bands E fdg_jumps dc_offset)) in H.
  apply H.
Qed.

(** ** C6: the jump estimate of one pair *)

Lemma histogram_bins_Ok (n : nat) (bins : Z) :
  histogram_bins n = Ok bins <->
  F64.trunc (F64.sqrt (F64.of_Z (Z.of_nat n))) = Some bins.
Proof.
  unfold histogram_bins.
  destruct (F64.trunc _); split; intros H; (discriminate || congruence).
Qed.

Lemma smoothing_window_Ok (E : Env) (nonempty : nat) (N : Z) :
  smoothing_window E nonempty = Ok N <->
  F64.trunc
    (F64.add
       (F64.mul (np_floor (libm_pow E (F64.of_Z (Z.of_nat nonempty))
                                      (F64.div (F64.of_Z 1) (F64.of_Z 3))))
                (F64.of_Z 2))
       (F64.of_Z 1)) = Some N.
Proof.
  unfold smoothing_window.
  destruct (F64.trunc _); split; intros H; (discriminate || congruence).
Qed.

Lemma box_kernel_Ok (N : Z) (kernel : list float) :
  box_kernel N = Ok kernel <->
  (0 < N)%Z /\
  kernel = replicate (Z.to_nat N) (F64.div (F64.of_Z 1) (F64.of_Z N)).
Proof.
  unfold box_kernel. destruct (Z.ltb_spec 0 N); split.
  - intros [= <-]. auto.
  - intros [_ ->]. reflexivity.
  - discriminate.
  - intros [? _]. lia.
Qed.

(** The whole-number square root is what the truncated binary64 square
    root gives, checked on every count up to 4096. *)
Lemma histogram_bins_floor_sqrt (n : nat) :
  (n <= 4096)%nat -> histogram_bins n = Ok (Z.sqrt (Z.of_nat n)).
Proof.
  intros Hn.
  assert (Hall : forallb
            (fun k => match histogram_bins k with
                      | Ok b => Z.eqb b (Z.sqrt (Z.of_nat k))
                      | Raise _ => false
                      end) (seq 0 4097) = true) by (vm_compute; reflexivity).
  rewrite forallb_forall in Hall.
  specialize (Hall n). rewrite in_seq in Hall.
  specialize (Hall ltac:(lia)).
  destruct (histogram_bins n); [|discriminate].
  apply Z.eqb_eq in Hall. congruence.
Qed.

(** The pair loop fills entries 1 to 4 with the estimates of the four
    pairs and leaves entry 0 at zero. *)
Lemma pair_jumps_Ok (E : Env) (geocoded_fdg : list Geocoded) (fdg_jumps : list float) :
  pair_jumps E geocoded_fdg = Ok fdg_jumps ->
  length fdg_jumps = n_subswaths /\
  fdg_jumps !! 0%nat = Some F64.zero /\
  forall i, (1 <= i < n_subswaths)%nat ->
    exists g g_prev fdg_diff jump,
      geocoded_fdg !! i = Some g /\
      geocoded_fdg !! (i - 1)%nat = Some g_prev /\
      overlap_difference g g_prev = Ok fdg_diff /\
      jump_estimate E fdg_diff = Ok jump /\
      fdg_jumps !! i = Some jump.
Proof.
  intros H. unfold pair_jumps in H.
  apply (for_each_inv _
           (fun k js =>
              length js = n_subswaths /\
              js !! 0%nat = Some F64.zero /\
              forall i, (1 <= i < k)%nat ->
                exists g g_prev fdg_diff jump,
                  geocoded_fdg !! i = Some g /\
                  geocoded_fdg !! (i - 1)%nat = Some g_prev /\
                  overlap_difference g g_prev = Ok fdg_diff /\
                  jump_estimate E fdg_diff = Ok jump /\
                  js !! i = Some jump)) in H.
  - exact H.
  - split; [reflexivity|]. split; [reflexivity|]. intros i Hi. lia.
  - intros k js js' Hk (Hlen & H0 & Hdone) Hbody.
    destruct (geocoded_fdg !! k) as [g|] eqn:Hg; [|discriminate].
    destruct (geocoded_fdg !! (k - 1)%nat) as [g_prev|] eqn:Hp; [|discriminate].
    apply bind_Ok in Hbody as (fdg_diff & Hdiff & Hbody).
    apply bind_Ok in Hbody as (jump & Hjump & Hbody).
    injection Hbody as <-.
    split; [rewrite length_insert; exact Hlen|]. split.
    + rewrite list_lookup_insert_ne by lia. exact H0.
    + intros i Hi. destruct (decide (i = k)) as [->|Hne].
      * exists g, g_prev, fdg_diff, jump. repeat split; try assumption.
        apply list_lookup_insert_eq. unfold n_subswaths in *. lia.
      * destruct (Hdone i ltac:(lia)) as (gi & gp & d & j & ? & ? & ? & ? & ?).
        exists gi, gp, d, j. rewrite list_lookup_insert_ne by congruence. auto.
Qed.

(** C6 (as the code has it).  For each pair (i-1, i), i in 1..4, the jump
    is estimated from the differences of the two geocoded fields over the
    cells both cover, by exactly these steps: the non-finite values are
    dropped; the histogram has as many bins as the square root of the
    number of samples truncated to a whole number; the counts are convolved
    (mode 'same') with a box of length [N = 2 * floor(nonempty ** (1/3.)) + 1]
    and height [1/N], where [nonempty] counts the non-empty bins; the
    estimate is the median of the centres of the bins whose smoothed count
    equals the largest smoothed count. *)
Theorem jump_estimate_steps (E : Env) :
  (forall geocoded_fdg fdg_jumps,
     pair_jumps E geocoded_fdg = Ok fdg_jumps ->
     forall i, (1 <= i < n_subswaths)%nat ->
       exists g g_prev fdg_diff jump,
         geocoded_fdg !! i = Some g /\
         geocoded_fdg !! (i - 1)%nat = Some g_prev /\
         overlap_difference g g_prev = Ok fdg_diff /\
         jump_estimate E fdg_diff = Ok jump /\
         fdg_jumps !! i = Some jump) /\
  (forall fdg_diff jump,
     jump_estimate E fdg_diff = Ok jump <->
     exists bins y x N y_sm top modes,
       let samples := List.filter F64.is_finite fdg_diff in
       let nonempty := length (List.filter (fun c => negb (Z.eqb c 0)) y) in
       F64.trunc (F64.sqrt (F64.of_Z (Z.of_nat (length samples)))) = Some bins /\
       np_histogram E samples bins = Ok (y, x) /\
       F64.trunc
         (F64.add
            (F64.mul (np_floor (libm_pow E (F64.of_Z (Z.of_nat nonempty))
                                           (F64.div (F64.of_Z 1) (F64.of_Z 3))))
                     (F64.of_Z 2))
            (F64.of_Z 1)) = Some N /\
       (0 < N)%Z /\
       np_convolve_same E (map F64.of_Z y)
         (replicate (Z.to_nat N) (F64.div (F64.of_Z 1) (F64.of_Z N))) = Ok y_sm /\
       py_max y_sm = Ok top /\
       take_at (zip_with (fun a b => F64.div (F64.add a b) (F64.of_Z 2)) x (tail x))
               (np_where (map (fun c => F64.eqb c top) y_sm)) = Ok modes /\
       jump = np_median E modes).
Proof.
  split.
  { intros geocoded_fdg fdg_jumps H. apply (pair_jumps_Ok _ _ _ H). }
  intros fdg_diff jump.
  assert (Hcount : forall y : list Z,
             count_true (map (fun c => negb (Z.eqb c 0)) y)
             = length (List.filter (fun c => negb (Z.eqb c 0)) y)).
  { intros y. unfold count_true.
    induction y as [|c y IH]; simpl; [reflexivity|].
    destruct (Z.eqb c 0); simpl; congruence. }
  unfold jump_estimate. split.
  - intros H.
    apply bind_Ok in H as (bins & Hb & H).
    apply bind_Ok in H as ([y x] & Hh & H).
    apply bind_Ok in H as (N & HN & H).
    apply bind_Ok in H as (kernel & Hk & H).
    apply bind_Ok in H as (y_sm & Hc & H).
    apply bind_Ok in H as (top & Ht & H).
    apply bind_Ok in H as (modes & Hm & H).
    injection H as <-.
    apply histogram_bins_Ok in Hb.
    apply smoothing_window_Ok in HN. rewrite Hcount in HN.
    apply box_kernel_Ok in Hk as [Hpos ->].
    exists bins, y, x, N, y_sm, top, modes. simpl.
    repeat split; assumption.
  - intros (bins & y & x & N & y_sm & top & modes & H). cbv zeta in H.
    destruct H as (Hb & Hh & HN & Hpos & Hc & Ht & Hm & ->).
    apply histogram_bins_Ok in Hb. rewrite Hb. simpl.
    rewrite Hh. simpl.
    rewrite Hcount. apply smoothing_window_Ok in HN. rewrite HN. simpl.
    pose proof (proj2 (box_kernel_Ok N _) (conj Hpos eq_refl)) as Hk.
    rewrite Hk. simpl. rewrite Hc. simpl. rewrite Ht. simpl.
    unfold bin_centres. rewrite Hm. reflexivity.
Qed.

Lemma jump_estimate_steps_witness :
  (exists g g_prev fdg_diff jump,
     Reference.geocoded Reference.acquisition !! 2%nat = Some g /\
     Reference.geocoded Reference.acquisition !! (2 - 1)%nat = Some g_prev /\
     overlap_difference g g_prev = Ok fdg_diff /\
     jump_estimate (Reference.env []) fdg_diff = Ok jump /\
     Reference.steps !! 2%nat = Some jump) /\
  (exists bins y x N y_sm top modes,
     let samples := List.filter F64.is_finite thirteen_differences in
     let nonempty := length (List.filter (fun c => negb (Z.eqb c 0)) y) in
     F64.trunc (F64.sqrt (F64.of_Z (Z.of_nat (length samples)))) = Some bins /\
     np_histogram (Reference.env []) samples bins = Ok (y, x) /\
     F64.trunc
       (F64.add
          (F64.mul (np_floor (libm_pow (Reference.env [])
                                (F64.of_Z (Z.of_nat nonempty))
                                (F64.div (F64.of_Z 1) (F64.of_Z 3))))
                   (F64.of_Z 2))
          (F64.of_Z 1)) = Some N /\
     (0 < N)%Z /\
     np_convolve_same (Reference.env []) (map F64.of_Z y)
       (replicate (Z.to_nat N) (F64.div (F64.of_Z 1) (F64.of_Z N))) = Ok y_sm /\
     py_max y_sm = Ok top /\
     take_at (zip_with (fun a b => F64.div (F64.add a b) (F64.of_Z 2)) x (tail x))
             (np_where (map (fun c => F64.eqb c top) y_sm)) = Ok modes /\
     F64.of_Z 6 = np_median (Reference.env []) modes).
Proof.
  split.
  - apply (proj1 (jump_estimate_steps (Reference.env []))
             (Reference.geocoded Reference.acquisition) Reference.steps).
    + vm_compute. reflexivity.
    + unfold n_subswaths. lia.
  - apply (proj1 (proj2 (jump_estimate_steps (Reference.env []))
                    thirteen_differences (F64.of_Z 6))).
    vm_compute. reflexivity.
Defined.

(** C6 (as stated) fails on the bin count: thirteen samples are put in
    three bins (the square root 3.6055 truncated), not in four (rounded),
    and with equal-width bins the estimate is then 6 where four bins would
    give 7.5. *)
Lemma jump_bins_are_not_rounded :
  histogram_bins (length thirteen_differences) = Ok 3%Z /\
  histogram_bins_as_specified (length thirteen_differences) = Ok 4%Z /\
  jump_estimate (Reference.env []) thirteen_differences = Ok (F64.of_Z 6) /\
  jump_estimate_as_specified (Reference.env []) thirteen_differences
  = Ok (Reference.lit 15 2) /\
  F64.eqb (F64.of_Z 6) (Reference.lit 15 2) = false.
Proof.
  repeat split; vm_compute; reflexivity.
Qed.

(** ** C5: the jump of the reference subswath *)

Lemma np_cumsum_length (l : list float) : length (np_cumsum l) = length l.
Proof.
  destruct l as [|x l]; [reflexivity|]. simpl. f_equal.
  revert x. induction l as [|y l IH]; intros x; simpl; [reflexivity|].
  f_equal. apply IH.
Qed.

Lemma reference_jumps_at_reference (fdg_jumps : list float) (i_ref : nat) :
  length fdg_jumps = n_subswaths ->
  (i_ref < n_subswaths)%nat ->
  exists r out,
    np_cumsum fdg_jumps !! i_ref = Some r /\
    reference_jumps fdg_jumps i_ref = Ok out /\
    out !! i_ref = Some (if F64.is_finite r then F64.zero else F64.nan).
Proof.
  intros Hlen Hi.
  destruct (lookup_lt_is_Some_2 (np_cumsum fdg_jumps) i_ref) as [r Hr].
  { rewrite np_cumsum_length. lia. }
  exists r, (map (fun j => F64.sub j r) (np_cumsum fdg_jumps)).
  split; [exact Hr|]. split.
  - unfold reference_jumps. rewrite Hr. reflexivity.
  - rewrite list_lookup_fmap, Hr. simpl. f_equal. apply sub_self.
Qed.

(** C5 (as the code has it).  In every run of the jump stage, whatever the
    reference index, the accumulated and referenced jump of the reference
    subswath is exactly +0.0 whenever its accumulated value is a finite
    number, which it always is for subswath 0, and NaN when that value is
    infinite or NaN. *)
Theorem reference_jump_is_zero (E : Env) (swaths : list Doppler) (i_ref : nat)
    (out : list float) :
  jump_stage E swaths i_ref = Ok out ->
  exists fdg_jumps r,
    length fdg_jumps = n_subswaths /\
    fdg_jumps !! 0%nat = Some F64.zero /\
    np_cumsum fdg_jumps !! i_ref = Some r /\
    out = map (fun j => F64.sub j r) (np_cumsum fdg_jumps) /\
    out !! i_ref = Some (if F64.is_finite r then F64.zero else F64.nan) /\
    (i_ref = 0%nat -> out !! i_ref = Some F64.zero).
Proof.
  unfold jump_stage. intros H.
  apply bind_Ok in H as (g & _ & H).
  apply bind_Ok in H as (fdg_jumps & Hpairs & H).
  apply pair_jumps_Ok in Hpairs as (Hlen & H0 & _).
  unfold reference_jumps in H.
  destruct (np_cumsum fdg_jumps !! i_ref) as [r|] eqn:Hr; [|discriminate].
  injection H as <-.
  assert (Hi : (i_ref < n_subswaths)%nat).
  { apply lookup_lt_Some in Hr. rewrite np_cumsum_length in Hr. lia. }
  destruct (reference_jumps_at_reference fdg_jumps i_ref Hlen Hi)
    as (r' & out' & Hr' & Hout' & Hat).
  rewrite Hr in Hr'. injection Hr' as <-.
  unfold reference_jumps in Hout'. rewrite Hr in Hout'. injection Hout' as <-.
  exists fdg_jumps, r. repeat split; try assumption.
  intros ->. rewrite Hat.
  destruct fdg_jumps as [|x l]; [discriminate|].
  simpl in H0, Hr. injection H0 as ->. injection Hr as <-. reflexivity.
Qed.

Lemma reference_jump_is_zero_witness :
  exists fdg_jumps r,
    length fdg_jumps = n_subswaths /\
    fdg_jumps !! 0%nat = Some F64.zero /\
    np_cumsum fdg_jumps !! 3%nat = Some r /\
    Reference.jumps = map (fun j => F64.sub j r) (np_cumsum fdg_jumps) /\
    Reference.jumps !! 3%nat
    = Some (if F64.is_finite r then F64.zero else F64.nan) /\
    (3%nat = 0%nat -> Reference.jumps !! 3%nat = Some F64.zero).
Proof.
  apply (reference_jump_is_zero (Reference.env [])
           (Reference.loaded Reference.acquisition) 3 Reference.jumps).
  vm_compute. reflexivity.
Defined.

(** C5 (as stated) fails: with four finite estimates of 2^1022 and the last
    subswath as reference, the accumulated value overflows and the
    correction of the reference subswath is NaN, not 0.0. *)
Lemma reference_jump_overflow :
  exists out,
    reference_jumps huge_jumps 4 = Ok out /\
    out !! 4%nat = Some F64.nan /\
    F64.eqb F64.nan F64.zero = false /\
    Forall (fun j => F64.is_finite j = true) huge_jumps.
Proof.
  eexists. split; [vm_compute; reflexivity|].
  split; [reflexivity|]. split; [reflexivity|].
  repeat constructor.
Qed.

(** ** C1: the corrected bands *)

Lemma wind_waves_band_add_fdg (sw : Doppler) (a : ndarray) :
  wind_waves_band (add_band sw "fdg" a) = wind_waves_band sw.
Proof.
  unfold wind_waves_band.
  rewrite has_band_add_other, get_band_add_other by reflexivity. reflexivity.
Qed.

Lemma correct_bands_Ok (E : Env) (fdg_jumps : list float) (dc_offset : float)
    (i : nat) (sw sw' : Doppler) :
  correct_bands E fdg_jumps dc_offset i sw = Ok sw' ->
  exists raw jump fww inci shift v0 flags v,
    get_band sw "raw_fdg" = Ok raw /\
    fdg_jumps !! i = Some jump /\
    wind_waves_band sw = Ok fww /\
    get_band sw "incidence_angle" = Ok inci /\
    subtract_wind_waves (corrected_fdg raw jump dc_offset) fww = Ok shift /\
    radial_velocity E shift (radians inci) = Ok v0 /\
    get_band sw "valid_doppler" = Ok flags /\
    mask_invalid v0 flags = Ok v /\
    sw' = add_band (add_band sw "fdg" (corrected_fdg raw jump dc_offset)) "Ur" v.
Proof.
  unfold correct_bands. intros H.
  apply bind_Ok in H as (raw & Hraw & H).
  apply bind_Ok in H as (jump & Hjump & H).
  change (add_band_wkv sw wkv_surface_velocity (corrected_fdg raw jump dc_offset))
    with (add_band sw "fdg" (corrected_fdg raw jump dc_offset)) in H.
  apply bind_Ok in H as (fww & Hfww & H).
  apply bind_Ok in H as (inci & Hinci & H).
  apply bind_Ok in H as (shift & Hshift & H).
  apply bind_Ok in H as (v0 & Hv0 & H).
  apply bind_Ok in H as (flags & Hflags & H).
  apply bind_Ok in H as (v & Hv & H).
  injection H as <-.
  rewrite wind_waves_band_add_fdg in Hfww.
  rewrite get_band_add_other in Hinci, Hflags by reflexivity.
  destruct (fdg_jumps !! i) as [j|]; [|discriminate]. injection Hjump as ->.
  exists raw, jump, fww, inci, shift, v0, flags, v.
  repeat split; assumption.
Qed.




(** ** C7: the empty bias sample *)

Lemma nanmean_nil : np_nanmean [] = F64.nan.
Proof. vm_compute. reflexivity. Qed.

(** C7.  When no land pixel of the reference subswath passes the threshold
    on [dc_std], the offset is NaN, and every pixel of the corrected 'fdg'
    band of each of the five subswaths is then NaN. *)
Theorem empty_bias_sample_propagates (E : Env) (swaths : list Doppler)
    (i_ref : nat) (dc_offset : float) (sw_ref : Doppler) :
  land_bias_second E swaths = Ok (i_ref, dc_offset) ->
  swaths !! i_ref = Some sw_ref ->
  retained_land_pixels E sw_ref = Ok [] ->
  dc_offset = F64.nan /\
  forall fdg_jumps swaths' i,
    band_corrector E fdg_jumps dc_offset swaths = Ok swaths' ->
    (i < n_subswaths)%nat ->
    exists sw raw fdg v,
      swaths !! i = Some sw /\
      get_band sw "raw_fdg" = Ok raw /\
      swaths' !! i = Some (add_band (add_band sw "fdg" fdg) "Ur" v) /\
      length fdg = length raw /\
      Forall (fun pixel => pixel = F64.nan) fdg.
Proof.
  intros Hbias Href Hempty.
  assert (Hnan : dc_offset = F64.nan).
  { unfold land_bias_second in Hbias.
    apply bind_Ok in Hbias as (counts & _ & Hbias).
    apply bind_Ok in Hbias as (sw & Hsw & Hbias).
    apply bind_Ok in Hbias as (off & Hoff & Hbias).
    injection Hbias as Hi <-. apply swath_at_Ok in Hsw.
    rewrite Hi, Href in Hsw. injection Hsw as <-.
    unfold reference_offset in Hoff. rewrite Hempty in Hoff. simpl in Hoff.
    injection Hoff as <-. apply nanmean_nil. }
  split; [exact Hnan|]. subst dc_offset.
  intros fdg_jumps swaths' i H Hi.
  destruct (band_corrector_Ok _ _ _ _ _ H i Hi) as (sw & sw' & Hsw & Hsw' & Hout).
  apply correct_bands_Ok in Hsw'
    as (raw & jump & fww & inci & shift & v0 & flags & v
        & Hraw & Hjump & Hfww & Hinci & Hshift & Hv0 & Hflags & Hv & ->).
  exists sw, raw, (corrected_fdg raw jump F64.nan), v.
  split; [exact Hsw|]. split; [exact Hraw|]. split; [exact Hout|].
  split; [apply length_map|].
  unfold corrected_fdg. apply Forall_fmap, Forall_true.
  intros x. simpl. apply sub_nan_r.
Qed.

Lemma empty_bias_sample_propagates_witness :
  F64.nan = F64.nan /\
  forall fdg_jumps swaths' i,
    band_corrector (Reference.env []) fdg_jumps F64.nan
      (Reference.loaded Reference.sea_acquisition) = Ok swaths' ->
    (i < n_subswaths)%nat ->
    exists sw raw fdg v,
      Reference.loaded Reference.sea_acquisition !! i = Some sw /\
      get_band sw "raw_fdg" = Ok raw /\
      swaths' !! i = Some (add_band (add_band sw "fdg" fdg) "Ur" v) /\
      length fdg = length raw /\
      Forall (fun pixel => pixel = F64.nan) fdg.
Proof.
  eapply (empty_bias_sample_propagates (Reference.env [])
            (Reference.loaded Reference.sea_acquisition) 2 F64.nan).
  - vm_compute. reflexivity.
  - vm_compute. reflexivity.
  - vm_compute. reflexivity.
Defined.

(** ** Unreadable incidence angles *)

Lemma load_subswath_Ok (E : Env) (k : nat) (s1 s2 : Locals) :
  load_subswath E k s1 = Ok s2 ->
  exists sw,
    swath_data s1 !! k = Some sw /\
    ((exists e, get_band sw "incidence_angle" = Raise e /\
                swath_data s2 = swath_data s1 /\
                is_corrupted s2 = true /\
                marked s2 = marked s1 ++ [k]) \/
     (exists a sw' w, get_band sw "incidence_angle" = Ok a /\
                      derive_doppler E sw = Ok (sw', w) /\
                      swath_data s2 = <[k := sw']> (swath_data s1) /\
                      is_corrupted s2 = false /\
                      marked s2 = marked s1)).
Proof.
  unfold load_subswath. intros H.
  apply bind_Ok in H as (sw & Hsw & H). apply swath_at_Ok in Hsw.
  exists sw. split; [exact Hsw|].
  destruct (get_band sw "incidence_angle") as [a|e].
  - right. apply bind_Ok in H as ([sw' w] & Hd & H). injection H as <-.
    exists a, sw', w. simpl. auto.
  - left. injection H as <-. exists e. simpl. auto.
Qed.

Lemma load_stage_length (E : Env) (st0 st : Locals) :
  load_stage E st0 = Ok st ->
  length (swath_data st) = length (swath_data st0).
Proof.
  intros H. unfold load_stage in H.
  apply (for_each_inv _ (fun _ s => length (swath_data s) = length (swath_data st0)))
    in H; [exact H | reflexivity |].
  intros k s1 s2 _ Hlen Hbody.
  apply load_subswath_Ok in Hbody as (sw & _ & [(e & _ & -> & _)|(a & sw' & w & _ & _ & -> & _)]).
  - exact Hlen.
  - rewrite length_insert. exact Hlen.
Qed.

(** A subswath without a readable incidence angle leaves the loop as it
    entered it. *)
Lemma load_stage_keeps_unreadable (E : Env) (st0 st : Locals) (i : nat)
    (sw : Doppler) (e : exn) :
  load_stage E st0 = Ok st ->
  swath_data st0 !! i = Some sw ->
  get_band sw "incidence_angle" = Raise e ->
  swath_data st !! i = Some sw.
Proof.
  intros H Hsw Hbad. unfold load_stage in H.
  apply (for_each_inv _ (fun _ s => swath_data s !! i = Some sw)) in H;
    [exact H | exact Hsw |].
  intros k s1 s2 _ Hi Hbody.
  apply load_subswath_Ok in Hbody
    as (swk & Hk & [(e' & _ & -> & _)|(a & sw' & w & Ha & _ & -> & _)]).
  - exact Hi.
  - destruct (decide (k = i)) as [->|Hne].
    + rewrite Hi in Hk. injection Hk as <-. congruence.
    + rewrite list_lookup_insert_ne by exact Hne. exact Hi.
Qed.

(** When every incidence angle can be read, the loop marks nothing and
    leaves the flag down. *)
Lemma load_stage_all_readable (E : Env) (st0 st : Locals) :
  load_stage E st0 = Ok st ->
  (forall i sw, (i < n_subswaths)%nat -> swath_data st0 !! i = Some sw ->
                exists a, get_band sw "incidence_angle" = Ok a) ->
  marked st = marked st0 /\ is_corrupted st = false.
Proof.
  intros H Hread. unfold load_stage in H.
  apply (for_each_inv _
           (fun k s =>
              marked s = marked st0 /\
              ((0 < k)%nat -> is_corrupted s = false) /\
              (forall j, (k <= j)%nat -> swath_data s !! j = swath_data st0 !! j)))
    in H.
  - destruct H as (Hm & Hc & _). split; [exact Hm|]. apply Hc. unfold n_subswaths. lia.
  - split; [reflexivity|]. split; [lia | reflexivity].
  - intros k s1 s2 Hk (Hm & _ & Hrest) Hbody.
    apply load_subswath_Ok in Hbody
      as (swk & Hswk & [(e' & He & _)|(a & sw' & w & _ & _ & Hdata & Hc & Hm')]).
    + rewrite Hrest in Hswk by lia.
      destruct (Hread k swk ltac:(lia) Hswk) as [a Ha]. congruence.
    + split; [congruence|]. split; [intros _; exact Hc|].
      intros j Hj. rewrite Hdata, list_lookup_insert_ne by lia. apply Hrest. lia.
Qed.

(** The corrector reads the incidence angle of each of the five subswaths. *)
Lemma band_corrector_reads_incidence (E : Env) (fdg_jumps : list float)
    (dc_offset : float) (swaths swaths' : list Doppler) (i : nat) :
  band_corrector E fdg_jumps dc_offset swaths = Ok swaths' ->
  (i < n_subswaths)%nat ->
  exists sw a, swaths !! i = Some sw /\ get_band sw "incidence_angle" = Ok a.
Proof.
  intros H Hi.
  destruct (band_corrector_Ok _ _ _ _ _ H i Hi) as (sw & sw' & Hsw & Hsw' & _).
  apply correct_bands_Ok in Hsw'
    as (raw & jump & fww & inci & shift & v0 & flags & v & _ & _ & _ & Hinci & _).
  eauto.
Qed.

(** A run that reaches the corrected bands has read every incidence angle:
    a subswath that cannot be read at first is not left out of the later
    loops, it stops them. *)
Lemma corrected_state_all_readable (E : Env) (swaths : list Doppler) (st : Locals) :
  corrected_state E swaths = Ok st ->
  forall i, (i < n_subswaths)%nat ->
    exists sw a, swaths !! i = Some sw /\ get_band sw "incidence_angle" = Ok a.
Proof.
  unfold corrected_state. intros H i Hi.
  apply bind_Ok in H as (st1 & Hload & H).
  apply bind_Ok in H as ([i1 d1] & _ & H).
  apply bind_Ok in H as ([i_ref dc_offset] & _ & H).
  apply bind_Ok in H as (fdg_jumps & _ & H).
  apply bind_Ok in H as (swaths' & Hcorr & _).
  destruct (band_corrector_reads_incidence _ _ _ _ _ i Hcorr Hi)
    as (sw1 & a & Hsw1 & Ha).
  pose proof (load_stage_length _ _ _ Hload) as Hlen. simpl in Hlen.
  destruct (lookup_lt_is_Some_2 swaths i) as [sw Hsw].
  { rewrite <- Hlen. eapply lookup_lt_Some; eauto. }
  exists sw. destruct (get_band sw "incidence_angle") as [a0|e] eqn:Hread.
  - eauto.
  - pose proof (load_stage_keeps_unreadable _ _ _ i sw e Hload Hsw Hread) as Hkept.
    rewrite Hkept in Hsw1. injection Hsw1 as <-. congruence.
Qed.

Lemma corrected_state_unmarked (E : Env) (swaths : list Doppler) (st : Locals) :
  corrected_state E swaths = Ok st ->
  marked st = [] /\ is_corrupted st = false.
Proof.
  intros H.
  pose proof (corrected_state_all_readable _ _ _ H) as Hread.
  unfold corrected_state in H.
  apply bind_Ok in H as (st1 & Hload & H).
  apply bind_Ok in H as ([i1 d1] & _ & H).
  apply bind_Ok in H as ([i_ref dc_offset] & _ & H).
  apply bind_Ok in H as (fdg_jumps & _ & H).
  apply bind_Ok in H as (swaths' & _ & H).
  injection H as <-. simpl.
  apply (load_stage_all_readable _ _ _ Hload). simpl.
  intros i sw Hi Hsw. destruct (Hread i Hi) as (sw' & a & Hsw' & Ha).
  rewrite Hsw in Hsw'. injection Hsw' as <-. eauto.
Qed.

(** In the export loop the flag is up exactly when a subswath was marked. *)
Lemma export_stage_flag (E : Env) (st1 st2 : Locals) :
  export_stage E st1 = Ok st2 ->
  (is_corrupted st1 = true <-> marked st1 <> []) ->
  (is_corrupted st2 = true <-> marked st2 <> []).
Proof.
  intros H H1. unfold export_stage in H.
  apply (for_each_inv _ (fun _ s => is_corrupted s = true <-> marked s <> []))
    in H; [exact H | exact H1 |].
  intros k s1 s2 _ Hinv Hbody. unfold export_subswath in Hbody.
  apply bind_Ok in Hbody as (sw & _ & Hbody).
  apply bind_Ok in Hbody as (u & _ & Hbody).
  apply bind_Ok in Hbody as (sw' & _ & Hbody).
  destruct (get_band sw' "incidence_angle").
  - apply bind_Ok in Hbody as (w & _ & Hbody).
    apply bind_Ok in Hbody as (figs & _ & Hbody).
    injection Hbody as <-. simpl. exact Hinv.
  - injection Hbody as <-. simpl. split; [|reflexivity].
    intros _ Hnil. apply app_eq_nil in Hnil as [_ Hnil]. discriminate.
Qed.

(** ** C3: the success flag *)

(** A run that reaches the last line returns a true flag exactly when no
    subswath was marked; in such a run the marks can only come from the
    export loop, where the flag is never lowered again. *)
Lemma returned_flag_reports_marks (E : Env) (swaths : list Doppler) (r : Outcome) :
  create_data_products E swaths = Ok r ->
  (success r = true <-> marked_corrupted r = []).
Proof.
  unfold create_data_products. intros H.
  apply bind_Ok in H as (st1 & Hcorr & H).
  apply bind_Ok in H as (st2 & Hexp & H).
  injection H as <-. simpl.
  destruct (corrected_state_unmarked _ _ _ Hcorr) as [Hm Hc].
  pose proof (export_stage_flag _ _ _ Hexp) as Hflag.
  rewrite Hm, Hc in Hflag.
  assert (H0 : false = true <-> @nil nat <> []) by (split; [discriminate | congruence]).
  specialize (Hflag H0).
  destruct (is_corrupted st2); simpl; split.
  - discriminate.
  - intros Hnil. exfalso. apply (proj1 Hflag eq_refl). exact Hnil.
  - intros _. destruct (marked st2) as [|x l]; [reflexivity|].
    assert (true = false) by (symmetry; apply Hflag; discriminate). discriminate.
  - reflexivity.
Qed.

(** A subswath that cannot be reprojected for display is reported: the run
    returns a false flag. *)
Lemma broken_export_is_reported :
  (exists r, create_data_products (Reference.env Reference.forecast)
               Reference.acquisition_broken_export = Ok r) /\
  success (Reference.outcome Reference.acquisition_broken_export) = false /\
  marked_corrupted (Reference.outcome Reference.acquisition_broken_export)
  = [1%nat].
Proof.
  split; [eexists; vm_compute; reflexivity|].
  split; vm_compute; reflexivity.
Qed.

(** C3 (what the code does instead).  When the incidence angle of a
    subswath cannot be read as the subswaths are loaded, the subswath is
    marked, but the manager returns no flag at all: the run ends in an
    exception, so the mark is never signalled as a partial success. *)
Theorem unreadable_subswath_returns_no_flag (E : Env) (swaths : list Doppler)
    (i : nat) (sw : Doppler) (e : exn) :
  (i < n_subswaths)%nat ->
  swaths !! i = Some sw ->
  get_band sw "incidence_angle" = Raise e ->
  raises (create_data_products E swaths).
Proof.
  intros Hi Hsw Hbad.
  destruct (create_data_products E swaths) as [r|e'] eqn:Hrun; [|eexists; reflexivity].
  unfold create_data_products in Hrun.
  apply bind_Ok in Hrun as (st & Hcorr & _).
  destruct (corrected_state_all_readable _ _ _ Hcorr i Hi) as (sw' & a & Hsw' & Ha).
  rewrite Hsw in Hsw'. injection Hsw' as <-. congruence.
Qed.

Lemma unreadable_subswath_returns_no_flag_witness :
  raises (create_data_products (Reference.env Reference.forecast)
            Reference.acquisition_corrupted).
Proof.
  eapply (unreadable_subswath_returns_no_flag (Reference.env Reference.forecast)
            Reference.acquisition_corrupted 1).
  - unfold n_subswaths. lia.
  - vm_compute. reflexivity.
  - vm_compute. reflexivity.
Defined.

(** On that acquisition the mark of the second subswath does not even
    outlive the loop that sets it: the next turn lowers the flag again. *)
Lemma load_mark_is_lowered :
  exists st,
    load_stage (Reference.env Reference.forecast)
      {| swath_data := Reference.acquisition_corrupted;
         is_corrupted := false; wind := None; marked := [] |} = Ok st /\
    marked st = [1%nat] /\
    is_corrupted st = false.
Proof.
  eexists. split; [vm_compute; reflexivity|]. split; reflexivity.
Qed.

(** ** C2: a subswath that cannot be read *)

(** C2 (what the code does instead).  A subswath whose incidence angle
    cannot be read is not set aside: the later loops run over all five
    subswaths, and the run ends in an exception before the corrected bands
    of the five subswaths are complete, so none of the others is processed
    to the end either. *)
Theorem unreadable_subswath_stops_run (E : Env) (swaths : list Doppler)
    (i : nat) (sw : Doppler) (e : exn) :
  (i < n_subswaths)%nat ->
  swaths !! i = Some sw ->
  get_band sw "incidence_angle" = Raise e ->
  raises (corrected_state E swaths).
Proof.
  intros Hi Hsw Hbad.
  destruct (corrected_state E swaths) as [st|e'] eqn:Hrun; [|eexists; reflexivity].
  destruct (corrected_state_all_readable _ _ _ Hrun i Hi) as (sw' & a & Hsw' & Ha).
  rewrite Hsw in Hsw'. injection Hsw' as <-. congruence.
Qed.

Lemma unreadable_subswath_stops_run_witness :
  raises (corrected_state (Reference.env Reference.forecast)
            Reference.acquisition_corrupted).
Proof.
  eapply (unreadable_subswath_stops_run (Reference.env Reference.forecast)
            Reference.acquisition_corrupted 1).
  - unfold n_subswaths. lia.
  - vm_compute. reflexivity.
  - vm_compute. reflexivity.
Defined.

(** The run on the acquisition whose second subswath is unreadable stops in
    the first bias block, at the read of 'raw_fdg' of that subswath. *)
Lemma unreadable_subswath_run :
  create_data_products (Reference.env Reference.forecast)
    Reference.acquisition_corrupted = Raise (KeyError "raw_fdg").
Proof. vm_compute. reflexivity. Qed.

(** An unreadable subswath that carries 'raw_fdg' is counted with the
    others: here it holds the only land pixels and becomes the reference
    subswath of the bias. *)
Lemma unreadable_subswath_is_counted :
  exists st dc_offset,
    load_stage (Reference.env []) {| swath_data := Reference.acquisition_unreadable_land;
                                     is_corrupted := false; wind := None;
                                     marked := [] |} = Ok st /\
    marked st = [3%nat] /\
    is_corrupted st = false /\
    land_bias_second (Reference.env []) (swath_data st) = Ok (3%nat, dc_offset) /\
    F64.is_finite dc_offset = true.
Proof.
  eexists _, _. split; [vm_compute; reflexivity|].
  split; [reflexivity|]. split; [reflexivity|].
  split; [vm_compute; reflexivity|]. reflexivity.
Qed.

(** * Further properties of the manager *)

(** ** Masks and positions *)

Lemma for_list_total {A B : Type} (f : A -> result B) (l : list A) :
  (forall x, In x l -> exists y, f x = Ok y) ->
  exists ys, for_list f l = Ok ys.
Proof.
  induction l as [|x l IH]; intros H; simpl; [eauto|].
  destruct (H x (or_introl eq_refl)) as [y Hy].
  destruct IH as [ys Hys]; [intros z Hz; apply H; right; exact Hz|].
  exists (y :: ys). rewrite Hy. simpl. rewrite Hys. reflexivity.
Qed.

Lemma compress_length_le {A : Type} (a : list A) (mask : list bool) :
  (length (compress a mask) <= length a)%nat.
Proof.
  revert mask. induction a as [|x a IH]; intros [|m mask]; simpl; try lia.
  destruct m; simpl; specialize (IH mask); lia.
Qed.

Lemma compress_length {A B : Type} (a : list A) (b : list B) (mask : list bool) :
  length a = length b ->
  length (compress a mask) = length (compress b mask).
Proof.
  revert b mask. induction a as [|x a IH]; intros [|y b] [|m mask] H; simpl in *;
    try reflexivity; try discriminate.
  destruct m; simpl; rewrite (IH b mask); congruence.
Qed.

Lemma positions_from_length (k : nat) (mask : list bool) :
  length (positions_from k mask) = count_true mask.
Proof.
  unfold count_true. revert k. induction mask as [|m mask IH]; intros k; simpl;
    [reflexivity|].
  destruct m; simpl; rewrite IH; reflexivity.
Qed.

Lemma compress_none {A : Type} (a : list A) (mask : list bool) :
  Forall (fun m => m = false) mask -> compress a mask = [].
Proof.
  intros H. revert a. induction H as [|m mask -> _ IH]; intros [|x a]; simpl; auto.
Qed.

(** Indexing by the positions of a mask, thinned by a second mask, is
    masking twice. *)
Lemma take_at_positions {A : Type} (a pre : list A) (mask mask2 : list bool) :
  length a = length mask ->
  take_at (pre ++ a) (compress (positions_from (length pre) mask) mask2)
  = Ok (compress (compress a mask) mask2).
Proof.
  revert pre mask mask2.
  induction a as [|x a IH]; intros pre [|m mask] mask2 Hlen; simpl in *;
    try discriminate.
  - reflexivity.
  - injection Hlen as Hlen.
    assert (Hnext : forall mask2',
               take_at (pre ++ x :: a)
                 (compress (positions_from (S (length pre)) mask) mask2')
               = Ok (compress (compress a mask) mask2')).
    { intros mask2'. specialize (IH (pre ++ [x]) mask mask2' Hlen).
      rewrite <- app_assoc in IH. simpl in IH.
      rewrite length_app in IH. simpl in IH.
      replace (length pre + 1)%nat with (S (length pre)) in IH by lia.
      exact IH. }
    destruct m; [|apply Hnext].
    destruct mask2 as [|m2 mask2]; simpl; [reflexivity|].
    destruct m2; [|apply Hnext].
    simpl. rewrite lookup_app_r by lia. rewrite Nat.sub_diag. simpl.
    rewrite Hnext. reflexivity.
Qed.

Lemma select_Ok {A : Type} (a : list A) (mask : list bool) (b : list A) :
  select a mask = Ok b <-> length a = length mask /\ b = compress a mask.
Proof.
  unfold select. destruct (Nat.eqb_spec (length a) (length mask)); split.
  - intros [= <-]. auto.
  - intros [_ ->]. reflexivity.
  - discriminate.
  - intros [? _]. contradiction.
Qed.

(** ** The land-pixel bias, further *)

(** The sample [dc] the first block draws through [np.argwhere] is the
    finite part of the sample the second block averages, whenever 'raw_fdg'
    has the shape of the land mask. *)
Theorem first_block_sample_is_retained_set (E : Env) (sw : Doppler)
    (raw flags : ndarray) (dc : list float) :
  get_band sw "raw_fdg" = Ok raw ->
  get_band sw "valid_land_doppler" = Ok flags ->
  length raw = length flags ->
  get_azimuth_time E sw = Ok tt ->
  (land_sample E sw = Ok dc <->
   exists kept, retained_land_pixels E sw = Ok kept /\
                dc = List.filter F64.is_finite kept).
Proof.
  intros Hraw Hflags Hlen Htime.
  unfold land_sample, retained_land_pixels, land_mask.
  rewrite Htime, Hflags, Hraw. simpl.
  set (landmask := map (fun f => F64.eqb f (F64.of_Z 1)) flags).
  assert (Hlm : length landmask = length flags) by apply length_map.
  destruct (get_band sw "dc_std") as [band|e]; simpl;
    [|split; [discriminate | intros (kept & H & _); discriminate]].
  destruct (select band landmask) as [dc_std|e] eqn:Hstd; simpl;
    [|split; [discriminate | intros (kept & H & _); discriminate]].
  apply select_Ok in Hstd as [Hband ->].
  set (dc_std := compress band landmask).
  set (keep := map (fun s => F64.leb s (std_threshold E dc_std)) dc_std).
  assert (Hkeep : length keep = length dc_std) by apply length_map.
  assert (Hpos : select (np_where landmask) keep = Ok (compress (np_where landmask) keep)).
  { apply select_Ok. split; [|reflexivity].
    unfold np_where. rewrite positions_from_length, Hkeep.
    unfold dc_std, count_true. apply compress_length. lia. }
  assert (Hland : select raw landmask = Ok (compress raw landmask)).
  { apply select_Ok. split; [lia | reflexivity]. }
  assert (Hkept : select (compress raw landmask) keep
                  = Ok (compress (compress raw landmask) keep)).
  { apply select_Ok. split; [|reflexivity].
    rewrite Hkeep. unfold dc_std. apply compress_length. lia. }
  rewrite Hpos, Hland. simpl. rewrite Hkept.
  pose proof (take_at_positions raw [] landmask keep ltac:(lia)) as Htake.
  simpl in Htake. unfold np_where. rewrite Htake. simpl.
  split.
  - intros [= <-]. eauto.
  - intros (kept & [= <-] & ->). reflexivity.
Qed.

Lemma first_block_sample_is_retained_set_witness :
  land_sample (Reference.env []) Scene.land_subswath = Ok Scene.land_dc <->
  exists kept,
    retained_land_pixels (Reference.env []) Scene.land_subswath = Ok kept /\
    Scene.land_dc = List.filter F64.is_finite kept.
Proof.
  eapply (first_block_sample_is_retained_set (Reference.env []) Scene.land_subswath);
    vm_compute; reflexivity.
Defined.

Lemma np_argmax_lt (l : list nat) : l <> [] -> (np_argmax l < length l)%nat.
Proof.
  intros H. destruct (np_argmax_spec l H) as (m & Hm & _).
  eapply lookup_lt_Some; eauto.
Qed.

Lemma reference_index_lt (counts : list nat) :
  length counts = n_subswaths -> (reference_index counts < n_subswaths)%nat.
Proof.
  intros Hlen. unfold reference_index.
  destruct (Nat.eqb (list_sum counts) 0).
  - vm_compute. lia.
  - rewrite <- Hlen. apply np_argmax_lt. intros ->. discriminate.
Qed.

Lemma retained_land_pixels_total (E : Env) (sw : Doppler) (flags std raw : ndarray) :
  get_band sw "valid_land_doppler" = Ok flags ->
  get_band sw "dc_std" = Ok std ->
  get_band sw "raw_fdg" = Ok raw ->
  length std = length flags ->
  length raw = length flags ->
  exists kept, retained_land_pixels E sw = Ok kept.
Proof.
  intros Hflags Hstd Hraw Hls Hlr.
  unfold retained_land_pixels, land_mask. rewrite Hflags, Hstd. simpl.
  set (landmask := map (fun f => F64.eqb f (F64.of_Z 1)) flags).
  assert (Hlm : length landmask = length flags) by apply length_map.
  assert (Hs1 : select std landmask = Ok (compress std landmask)).
  { apply select_Ok. split; [lia | reflexivity]. }
  assert (Hs2 : select raw landmask = Ok (compress raw landmask)).
  { apply select_Ok. split; [lia | reflexivity]. }
  rewrite Hs1. simpl. rewrite Hraw. simpl. rewrite Hs2. simpl.
  eexists. apply select_Ok. split; [|reflexivity].
  rewrite length_map. apply compress_length. lia.
Qed.

(** On five subswaths that each answer for 'valid_land_doppler', 'dc_std'
    and 'raw_fdg' in one shape, the bias block raises nothing: it yields an
    offset and a reference index that is one of the five. *)
Theorem land_bias_succeeds (E : Env) (swaths : list Doppler) :
  length swaths = n_subswaths ->
  (forall i sw, swaths !! i = Some sw ->
     exists flags std raw,
       get_band sw "valid_land_doppler" = Ok flags /\
       get_band sw "dc_std" = Ok std /\
       get_band sw "raw_fdg" = Ok raw /\
       length std = length flags /\ length raw = length flags) ->
  exists i_ref dc_offset,
    land_bias_second E swaths = Ok (i_ref, dc_offset) /\
    (i_ref < n_subswaths)%nat.
Proof.
  intros Hlen Hbands. unfold land_bias_second.
  destruct (for_list_total
              (fun i => sw ← swath_at swaths i; land_count sw) (seq 0 n_subswaths))
    as [counts Hcounts].
  { intros i Hi. apply in_seq in Hi.
    destruct (lookup_lt_is_Some_2 swaths i ltac:(lia)) as [sw Hsw].
    destruct (Hbands i sw Hsw) as (flags & std & raw & Hflags & _).
    rewrite (proj2 (swath_at_Ok swaths i sw) Hsw). simpl.
    unfold land_count, land_mask. rewrite Hflags. simpl. eauto. }
  rewrite Hcounts. simpl.
  pose proof (for_list_seq_lookup _ _ _ Hcounts) as [Hcl _].
  pose proof (reference_index_lt counts Hcl) as Hi.
  destruct (lookup_lt_is_Some_2 swaths (reference_index counts) ltac:(lia))
    as [sw Hsw].
  rewrite (proj2 (swath_at_Ok _ _ _) Hsw). simpl.
  destruct (Hbands _ sw Hsw) as (flags & std & raw & Hf & Hs & Hr & Hls & Hlr).
  destruct (retained_land_pixels_total E sw flags std raw Hf Hs Hr Hls Hlr)
    as [kept Hkept].
  unfold reference_offset. rewrite Hkept. simpl. eauto.
Qed.

Lemma land_bias_succeeds_witness :
  exists i_ref dc_offset,
    land_bias_second (Reference.env []) (Reference.loaded Reference.acquisition)
    = Ok (i_ref, dc_offset) /\
    (i_ref < n_subswaths)%nat.
Proof.
  apply (land_bias_succeeds (Reference.env []) (Reference.loaded Reference.acquisition)).
  - vm_compute; reflexivity.
  - intros i sw Hsw.
    do 5 (destruct i as [|i];
          [ vm_compute in Hsw; injection Hsw as <-;
            eexists _, _, _; repeat split; vm_compute; reflexivity | ]).
    vm_compute in Hsw. discriminate Hsw.
Defined.

Lemma count_true_none (mask : list bool) :
  Forall (fun m => m = false) mask -> count_true mask = 0%nat.
Proof.
  intros H. unfold count_true. rewrite compress_none by exact H. reflexivity.
Qed.

(** An acquisition without a single land pixel: the reference subswath is
    the middle one and the offset is NaN, whatever the threshold. *)
Theorem no_land_gives_nan_offset (E : Env) (swaths : list Doppler)
    (i_ref : nat) (dc_offset : float) :
  land_bias_second E swaths = Ok (i_ref, dc_offset) ->
  (forall i sw flags,
     swaths !! i = Some sw ->
     get_band sw "valid_land_doppler" = Ok flags ->
     Forall (fun f => F64.eqb f (F64.of_Z 1) = false) flags) ->
  i_ref = 2%nat /\ dc_offset = F64.nan.
Proof.
  intros H Hsea. unfold land_bias_second in H.
  apply bind_Ok in H as (counts & Hcounts & H).
  apply bind_Ok in H as (sw & Hsw & H).
  apply bind_Ok in H as (off & Hoff & H).
  injection H as Hi <-. apply swath_at_Ok in Hsw.
  apply for_list_seq_lookup in Hcounts as [Hlen Hcounts].
  assert (Hzero : list_sum counts = 0%nat).
  { apply list_sum_zero. intros j n Hj.
    assert (Hjn : (j < n_subswaths)%nat).
    { apply lookup_lt_Some in Hj. lia. }
    destruct (Hcounts j Hjn) as (n' & Hn' & Hlook).
    rewrite Hj in Hlook. injection Hlook as <-.
    apply bind_Ok in Hn' as (swj & Hswj & Hn'). apply swath_at_Ok in Hswj.
    unfold land_count, land_mask in Hn'.
    apply bind_Ok in Hn' as (mask & Hmask & Hn').
    apply bind_Ok in Hmask as (flags & Hflags & Hmask).
    injection Hmask as <-. injection Hn' as <-.
    apply count_true_none. apply Forall_fmap.
    eapply Forall_impl; [exact (Hsea j swj flags Hswj Hflags)|].
    intros f Hf. exact Hf. }
  assert (Href : reference_index counts = 2%nat).
  { unfold reference_index. rewrite Hzero. reflexivity. }
  split; [congruence|].
  unfold reference_offset, retained_land_pixels, land_mask in Hoff.
  apply bind_Ok in Hoff as (kept & Hkept & Hoff). injection Hoff as <-.
  apply bind_Ok in Hkept as (mask & Hmask & Hkept).
  apply bind_Ok in Hmask as (flags & Hflags & Hmask). injection Hmask as <-.
  apply bind_Ok in Hkept as (band & _ & Hkept).
  apply bind_Ok in Hkept as (dc_std & Hstd & Hkept).
  apply bind_Ok in Hkept as (raw & _ & Hkept).
  apply bind_Ok in Hkept as (land & Hland & Hkept).
  assert (Hnone : Forall (fun m => m = false)
                    (map (fun f => F64.eqb f (F64.of_Z 1)) flags)).
  { apply Forall_fmap.
    eapply Forall_impl; [exact (Hsea _ sw flags Hsw Hflags)|].
    intros f Hf. exact Hf. }
  apply select_Ok in Hstd as [_ ->]. apply select_Ok in Hland as [_ ->].
  rewrite !compress_none in Hkept by exact Hnone.
  simpl in Hkept. injection Hkept as <-. apply nanmean_nil.
Qed.

Lemma no_land_gives_nan_offset_witness :
  land_bias_second (Reference.env []) (Reference.loaded Reference.sea_acquisition)
  = Ok (2%nat, F64.nan) /\
  (2%nat = 2%nat /\ F64.nan = F64.nan).
Proof.
  split; [vm_compute; reflexivity|].
  apply (no_land_gives_nan_offset (Reference.env [])
           (Reference.loaded Reference.sea_acquisition) 2 F64.nan).
  - vm_compute; reflexivity.
  - intros i sw flags Hsw Hflags.
    do 5 (destruct i as [|i];
          [ vm_compute in Hsw; injection Hsw as <-;
            vm_compute in Hflags; injection Hflags as <-;
            repeat (apply Forall_cons_2; [vm_compute; reflexivity|]);
            apply Forall_nil_2 | ]).
    vm_compute in Hsw. discriminate Hsw.
Defined.

(** ** The forecast wind (lines 141-170) *)

Lemma nearest_fold (t : Z) (ws : list WindRecord) (best : WindRecord) :
  let pick := fold_left
                (fun best w' =>
                   if (Z.abs (wind_time w' - t) <? Z.abs (wind_time best - t))%Z
                   then w' else best) ws best in
  (pick = best \/ In pick ws) /\
  (Z.abs (wind_time pick - t) <= Z.abs (wind_time best - t))%Z /\
  (forall w, In w ws -> (Z.abs (wind_time pick - t) <= Z.abs (wind_time w - t))%Z).
Proof.
  revert best. induction ws as [|w ws IH]; intros best; simpl.
  - split; [auto|]. split; [lia|]. intros w [].
  - set (next := if (Z.abs (wind_time w - t) <? Z.abs (wind_time best - t))%Z
                 then w else best).
    destruct (IH next) as (Hin & Hle & Hmin).
    assert (Hnext : (Z.abs (wind_time next - t) <= Z.abs (wind_time best - t))%Z /\
                    (Z.abs (wind_time next - t) <= Z.abs (wind_time w - t))%Z /\
                    (next = best \/ next = w)).
    { unfold next.
      destruct (Z.ltb_spec (Z.abs (wind_time w - t)) (Z.abs (wind_time best - t)));
        repeat split; auto; lia. }
    destruct Hnext as (Hnb & Hnw & Hwhich).
    split; [|split].
    + destruct Hin as [->|Hin]; [|auto].
      destruct Hwhich as [->| ->]; auto.
    + lia.
    + intros w' [<-|Hw']; [lia | auto].
Qed.

Lemma nearest_wind_spec (t : Z) (wind : list WindRecord) (w : WindRecord) :
  nearest_wind t wind = Some w ->
  In w wind /\
  forall w', In w' wind -> (Z.abs (wind_time w - t) <= Z.abs (wind_time w' - t))%Z.
Proof.
  destruct wind as [|w0 ws]; simpl; [discriminate|]. intros [= <-].
  destruct (nearest_fold t ws w0) as (Hin & Hle & Hmin). cbv zeta in *.
  split.
  - destruct Hin as [->|Hin]; auto.
  - intros w' [<-|Hw']; auto.
Qed.

Lemma matching_wind_In (E : Env) (sw : Doppler) (w : WindRecord) :
  In w (matching_wind E sw) <->
  In w (wind_catalogue E) /\
  (Z.abs (wind_time w - time_coverage_start sw) <= three_hours)%Z.
Proof.
  unfold matching_wind. rewrite filter_In, andb_true_iff, !Z.leb_le.
  split; intros [Hin H]; (split; [exact Hin | lia]).
Qed.

(** The wind-wave branch is taken exactly when the catalogue holds a
    forecast within three hours of the acquisition, and the field it then
    uses is one of those, as close in time to the acquisition as any. *)
Theorem forecast_choice (E : Env) (sw : Doppler) :
  (matching_wind E sw <> [] <->
   exists w, In w (wind_catalogue E) /\
             (Z.abs (wind_time w - time_coverage_start sw) <= three_hours)%Z) /\
  (forall file,
     wind_file (time_coverage_start sw) (matching_wind E sw) = Ok file ->
     exists w,
       In w (wind_catalogue E) /\
       head (wind_uris w) = Some file /\
       (Z.abs (wind_time w - time_coverage_start sw) <= three_hours)%Z /\
       forall w', In w' (wind_catalogue E) ->
         (Z.abs (wind_time w' - time_coverage_start sw) <= three_hours)%Z ->
         (Z.abs (wind_time w - time_coverage_start sw)
          <= Z.abs (wind_time w' - time_coverage_start sw))%Z).
Proof.
  split.
  - split.
    + intros Hne. destruct (matching_wind E sw) as [|w ws] eqn:Hm; [congruence|].
      exists w. apply matching_wind_In. rewrite Hm. left. reflexivity.
    + intros (w & Hw) Hnil. apply matching_wind_In in Hw. rewrite Hnil in Hw.
      destruct Hw.
  - intros file H. unfold wind_file in H.
    destruct (nearest_wind _ _) as [w|] eqn:Hnear; [|discriminate].
    apply nearest_wind_spec in Hnear as [Hin Hmin].
    apply matching_wind_In in Hin as [Hcat Hwin].
    exists w. destruct (wind_uris w) as [|u us] eqn:Hu; [discriminate|].
    injection H as <-. repeat split; auto.
    intros w' Hcat' Hwin'. apply Hmin. apply matching_wind_In. auto.
Qed.

Lemma forecast_choice_witness :
  (matching_wind (Reference.env Reference.forecast) Scene.second_subswath <> [] <->
   exists w, In w Reference.forecast /\
             (Z.abs (wind_time w - time_coverage_start Scene.second_subswath)
              <= three_hours)%Z) /\
  exists w,
    In w Reference.forecast /\
    head (wind_uris w) = Some "gfs_b" /\
    (Z.abs (wind_time w - time_coverage_start Scene.second_subswath) <= three_hours)%Z /\
    forall w', In w' Reference.forecast ->
      (Z.abs (wind_time w' - time_coverage_start Scene.second_subswath)
       <= three_hours)%Z ->
      (Z.abs (wind_time w - time_coverage_start Scene.second_subswath)
       <= Z.abs (wind_time w' - time_coverage_start Scene.second_subswath))%Z.
Proof.
  split.
  - apply (forecast_choice (Reference.env Reference.forecast) Scene.second_subswath).
  - apply (proj2 (forecast_choice (Reference.env Reference.forecast)
                    Scene.second_subswath) "gfs_b").
    vm_compute; reflexivity.
Defined.

(** ** Reading a subswath (lines 136-197) *)

Lemma sub_zero_r (x : float) : F64.sub x F64.zero = x.
Proof. destruct x as [[]|[]| |s m e]; reflexivity. Qed.

(** What one readable subswath gains. *)
Lemma derive_doppler_Ok (E : Env) (sw sw' : Doppler) (w : list WindRecord) :
  derive_doppler E sw = Ok (sw', w) ->
  w = matching_wind E sw /\
  fileName sw' = fileName sw /\
  time_coverage_start sw' = time_coverage_start sw /\
  exists dca pol fdg inci v sigma,
    get_band sw "incidence_angle" = Ok inci /\
    ((w = [] /\
      exists v0 flags,
        radial_velocity E fdg (radians inci) = Ok v0 /\
        get_band sw "valid_doppler" = Ok flags /\
        mask_invalid v0 flags = Ok v /\
        bands sw' = bands sw ++ [("dca", dca); ("raw_Ur", v); ("raw_fdg", fdg);
                                 (("corrected_sigma0_" ++ pol)%string, sigma)]) \/
     (w <> [] /\
      exists fww shift,
        elementwise F64.sub fdg fww = Ok shift /\
        radial_velocity E shift (radians inci) = Ok v /\
        bands sw' = bands sw ++ [("dca", dca); ("fww", fww); ("raw_Ur", v);
                                 ("raw_fdg", fdg);
                                 (("corrected_sigma0_" ++ pol)%string, sigma)])).
Proof.
  unfold derive_doppler. intros H.
  apply bind_Ok in H as (dca & _ & H).
  change (add_band_wkv sw wkv_anomaly dca) with (add_band sw "dca" dca) in H.
  change (matching_wind E (add_band sw "dca" dca)) with (matching_wind E sw) in H.
  apply bind_Ok in H as (pol & _ & H).
  apply bind_Ok in H as ([sw1 fdg] & Hbranch & H).
  apply bind_Ok in H as (sigma & _ & H).
  injection H as <- <-.
  split; [reflexivity|].
  destruct (matching_wind E sw) as [|w0 ws] eqn:Hw.
  - apply bind_Ok in Hbranch as (fdg' & _ & Hbranch).
    apply bind_Ok in Hbranch as (inci & Hinci & Hbranch).
    apply bind_Ok in Hbranch as (v0 & Hv0 & Hbranch).
    apply bind_Ok in Hbranch as (flags & Hflags & Hbranch).
    apply bind_Ok in Hbranch as (v & Hv & Hbranch).
    injection Hbranch as <- <-.
    rewrite get_band_add_other in Hinci, Hflags by reflexivity.
    split; [reflexivity|]. split; [reflexivity|].
    exists dca, pol, fdg', inci, v, sigma. split; [exact Hinci|].
    left. split; [reflexivity|]. exists v0, flags.
    repeat split; try assumption.
    simpl. rewrite <- !app_assoc. reflexivity.
  - apply bind_Ok in Hbranch as (file & _ & Hbranch).
    apply bind_Ok in Hbranch as (fww & _ & Hbranch).
    change (add_band_wkv (add_band sw "dca" dca) wkv_wind_waves fww)
      with (add_band (add_band sw "dca" dca) "fww" fww) in Hbranch.
    apply bind_Ok in Hbranch as (fdg' & _ & Hbranch).
    apply bind_Ok in Hbranch as (inci & Hinci & Hbranch).
    apply bind_Ok in Hbranch as (shift & Hshift & Hbranch).
    apply bind_Ok in Hbranch as (v & Hv & Hbranch).
    injection Hbranch as <- <-.
    rewrite !get_band_add_other in Hinci by reflexivity.
    split; [reflexivity|]. split; [reflexivity|].
    exists dca, pol, fdg', inci, v, sigma. split; [exact Hinci|].
    right. split; [discriminate|]. exists fww, shift.
    repeat split; try assumption.
    simpl. rewrite <- !app_assoc. reflexivity.
Qed.

Lemma find_band_app_l (name : string) (bs more : list (string * ndarray))
    (a : ndarray) :
  find_band name bs = Some a -> find_band name (bs ++ more) = Some a.
Proof.
  induction bs as [|[n b] bs IH]; simpl; [discriminate|].
  destruct (String.eqb n name); [auto | exact IH].
Qed.

Lemma find_band_app_r (name : string) (bs more : list (string * ndarray)) :
  find_band name bs = None -> find_band name (bs ++ more) = find_band name more.
Proof.
  induction bs as [|[n b] bs IH]; simpl; [reflexivity|].
  destruct (String.eqb n name); [discriminate | exact IH].
Qed.

(** Every turn of the reading loop, subswath by subswath. *)
Lemma load_stage_Ok (E : Env) (st0 st : Locals) :
  load_stage E st0 = Ok st ->
  forall i, (i < n_subswaths)%nat ->
    exists sw,
      swath_data st0 !! i = Some sw /\
      ((exists e, get_band sw "incidence_angle" = Raise e /\
                  swath_data st !! i = Some sw) \/
       (exists a sw' w, get_band sw "incidence_angle" = Ok a /\
                        derive_doppler E sw = Ok (sw', w) /\
                        swath_data st !! i = Some sw')).
Proof.
  intros H. unfold load_stage in H.
  apply (for_each_inv _
           (fun k s =>
              (forall j, (k <= j)%nat -> swath_data s !! j = swath_data st0 !! j) /\
              forall i, (i < k)%nat ->
                exists sw,
                  swath_data st0 !! i = Some sw /\
                  ((exists e, get_band sw "incidence_angle" = Raise e /\
                              swath_data s !! i = Some sw) \/
                   (exists a sw' w, get_band sw "incidence_angle" = Ok a /\
                                    derive_doppler E sw = Ok (sw', w) /\
                                    swath_data s !! i = Some sw')))) in H.
  - apply H.
  - split; [reflexivity|]. intros i Hi. lia.
  - intros k s1 s2 Hk (Hrest & Hdone) Hbody.
    apply load_subswath_Ok in Hbody
      as (swk & Hswk & [(e & He & Hdata & _)|(a & sw' & w & Ha & Hd & Hdata & _)]);
      rewrite Hdata; rewrite Hrest in Hswk by lia.
    + split; [intros j Hj; apply Hrest; lia|].
      intros i Hi. destruct (decide (i = k)) as [->|Hne].
      * exists swk. split; [exact Hswk|]. left. exists e. split; [exact He|].
        rewrite Hrest by lia. exact Hswk.
      * apply Hdone. lia.
    + assert (k < length (swath_data s1))%nat.
      { apply (lookup_lt_Some _ _ swk). rewrite Hrest by lia. exact Hswk. }
      split.
      * intros j Hj. rewrite list_lookup_insert_ne by lia. apply Hrest. lia.
      * intros i Hi. destruct (decide (i = k)) as [->|Hne].
        -- exists swk. split; [exact Hswk|]. right. exists a, sw', w.
           repeat split; try assumption. apply list_lookup_insert_eq. assumption.
        -- destruct (Hdone i ltac:(lia)) as (sw & Hsw & Hcase).
           exists sw. split; [exact Hsw|].
           rewrite list_lookup_insert_ne by congruence. exact Hcase.
Qed.

(** A subswath whose incidence angle can be read comes out of the reading
    loop answering for 'dca', 'raw_Ur' and 'raw_fdg', and it carries a band
    'fww' exactly when it carried one before or a forecast lies within three
    hours of it. *)
Theorem readable_subswath_is_derived (E : Env) (st0 st : Locals) (i : nat)
    (sw : Doppler) (inci : ndarray) :
  load_stage E st0 = Ok st ->
  (i < n_subswaths)%nat ->
  swath_data st0 !! i = Some sw ->
  get_band sw "incidence_angle" = Ok inci ->
  exists sw',
    swath_data st !! i = Some sw' /\
    has_band sw' "dca" = true /\
    has_band sw' "raw_Ur" = true /\
    has_band sw' "raw_fdg" = true /\
    has_band sw' "fww"
    = has_band sw "fww" || negb (Nat.eqb (length (matching_wind E sw)) 0).
Proof.
  intros Hload Hi Hsw Hinci.
  destruct (load_stage_Ok _ _ _ Hload i Hi) as (sw0 & Hsw0 & Hcase).
  rewrite Hsw in Hsw0. injection Hsw0 as <-.
  destruct Hcase as [(e & He & _)|(a & sw' & w & _ & Hd & Hout)]; [congruence|].
  exists sw'. split; [exact Hout|].
  apply derive_doppler_Ok in Hd
    as (-> & _ & _ & dca & pol & fdg & inci' & v & sigma & _ & Hbranch).
  assert (Hhas : forall name more,
             has_band {| fileName := fileName sw';
                         time_coverage_start := time_coverage_start sw';
                         bands := bands sw ++ more |} name
             = has_band sw name
               || match find_band name more with Some _ => true | None => false end).
  { intros name more. unfold has_band. simpl.
    destruct (find_band name (bands sw)) as [x|] eqn:Hf.
    - rewrite (find_band_app_l _ _ _ _ Hf). reflexivity.
    - rewrite (find_band_app_r _ _ _ Hf). reflexivity. }
  assert (Hsw' : forall name, has_band sw' name
             = has_band {| fileName := fileName sw';
                           time_coverage_start := time_coverage_start sw';
                           bands := bands sw' |} name) by reflexivity.
  destruct Hbranch as [(Hw & v0 & flags & _ & _ & _ & Hb)|(Hw & fww & shift & _ & _ & Hb)];
    rewrite !Hsw', Hb, !Hhas.
  - rewrite Hw. simpl. rewrite !orb_true_r, orb_false_r. auto.
  - simpl. rewrite !orb_true_r.
    destruct (matching_wind E sw); [congruence|]. simpl. rewrite orb_true_r. auto.
Qed.

Lemma readable_subswath_is_derived_witness :
  exists sw',
    swath_data (Scene.read_state Reference.forecast Reference.acquisition) !! 1%nat
    = Some sw' /\
    has_band sw' "dca" = true /\
    has_band sw' "raw_Ur" = true /\
    has_band sw' "raw_fdg" = true /\
    has_band sw' "fww"
    = has_band Scene.second_subswath "fww"
      || negb (Nat.eqb (length (matching_wind (Reference.env Reference.forecast)
                                  Scene.second_subswath)) 0).
Proof.
  eapply (readable_subswath_is_derived (Reference.env Reference.forecast)
            (Scene.start Reference.acquisition)
            (Scene.read_state Reference.forecast Reference.acquisition) 1
            Scene.second_subswath).
  - vm_compute; reflexivity.
  - unfold n_subswaths; lia.
  - vm_compute; reflexivity.
  - vm_compute; reflexivity.
Defined.

(** Up to the export nothing is taken from a subswath: its bands come out
    of the corrected state in their order, followed by the bands added, and
    every band that could be read is read as before. *)
Theorem bands_are_kept (E : Env) (swaths : list Doppler) (st : Locals) (i : nat)
    (sw : Doppler) :
  corrected_state E swaths = Ok st ->
  swaths !! i = Some sw ->
  exists sw' more,
    swath_data st !! i = Some sw' /\
    bands sw' = bands sw ++ more /\
    fileName sw' = fileName sw /\
    time_coverage_start sw' = time_coverage_start sw /\
    forall name a, get_band sw name = Ok a -> get_band sw' name = Ok a.
Proof.
  intros H Hsw. unfold corrected_state in H.
  apply bind_Ok in H as (st1 & Hload & H).
  apply bind_Ok in H as ([i1 d1] & _ & H).
  apply bind_Ok in H as ([i_ref dc_offset] & _ & H).
  apply bind_Ok in H as (fdg_jumps & _ & H).
  apply bind_Ok in H as (swaths' & Hcorr & H).
  injection H as <-. simpl.
  assert (Hloaded : exists sw1 more,
             swath_data st1 !! i = Some sw1 /\ bands sw1 = bands sw ++ more /\
             fileName sw1 = fileName sw /\
             time_coverage_start sw1 = time_coverage_start sw).
  { unfold load_stage in Hload.
    apply (for_each_inv _
             (fun _ s => exists sw1 more,
                swath_data s !! i = Some sw1 /\ bands sw1 = bands sw ++ more /\
                fileName sw1 = fileName sw /\
                time_coverage_start sw1 = time_coverage_start sw)) in Hload.
    - exact Hload.
    - exists sw, []. rewrite app_nil_r. auto.
    - intros k s1 s2 _ (sw1 & more & Hs1 & Hb & Hf & Ht) Hbody.
      apply load_subswath_Ok in Hbody
        as (swk & Hswk & [(e & _ & -> & _)|(a & sw' & w & _ & Hd & -> & _)]).
      + eauto 10.
      + destruct (decide (k = i)) as [->|Hne].
        * rewrite Hs1 in Hswk. injection Hswk as <-.
          apply derive_doppler_Ok in Hd
            as (_ & Hf' & Ht' & dca & pol & fdg & inci & v & sigma & _ & Hbranch).
          exists sw'.
          destruct Hbranch as [(_ & v0 & flags & _ & _ & _ & Hb')|(_ & fww & shift & _ & _ & Hb')];
            eexists; (split; [apply list_lookup_insert_eq; eapply lookup_lt_Some; eauto|]);
            rewrite Hb', Hb, <- app_assoc; (split; [reflexivity|]); split; congruence.
        * exists sw1, more. rewrite list_lookup_insert_ne by exact Hne. auto. }
  destruct Hloaded as (sw1 & more & Hs1 & Hb1 & Hf1 & Ht1).
  unfold band_corrector in Hcorr.
  apply (for_each_update (correct_bands E fdg_jumps dc_offset)) in Hcorr
    as (_ & Hdone & Hrest).
  assert (Hfinal : exists sw' more',
             swaths' !! i = Some sw' /\ bands sw' = bands sw ++ more' /\
             fileName sw' = fileName sw /\
             time_coverage_start sw' = time_coverage_start sw).
  { destruct (Nat.lt_ge_cases i n_subswaths) as [Hi|Hi].
    - destruct (Hdone i Hi) as (x & x' & Hx & Hx' & Hout).
      rewrite Hs1 in Hx. injection Hx as <-.
      apply correct_bands_Ok in Hx'
        as (raw & jump & fww & inci & shift & v0 & flags & v & _ & _ & _ & _ & _ & _ & _ & _ & ->).
      eexists _, _. split; [exact Hout|]. simpl.
      rewrite Hb1, <- !app_assoc. auto.
    - exists sw1, more. rewrite Hrest by exact Hi. auto. }
  destruct Hfinal as (sw' & more' & Hout & Hb & Hf & Ht).
  exists sw', more'. repeat split; try assumption.
  intros name a Ha. apply get_band_Ok in Ha. apply get_band_Ok.
  rewrite Hb. apply find_band_app_l. exact Ha.
Qed.

Lemma bands_are_kept_witness :
  exists sw' more,
    swath_data (Scene.corrected_locals Reference.forecast Reference.acquisition) !! 1%nat
    = Some sw' /\
    bands sw' = bands Scene.second_subswath ++ more /\
    fileName sw' = fileName Scene.second_subswath /\
    time_coverage_start sw' = time_coverage_start Scene.second_subswath /\
    forall name a,
      get_band Scene.second_subswath name = Ok a -> get_band sw' name = Ok a.
Proof.
  apply (bands_are_kept (Reference.env Reference.forecast) Reference.acquisition
           (Scene.corrected_locals Reference.forecast Reference.acquisition) 1
           Scene.second_subswath).
  - vm_compute; reflexivity.
  - vm_compute; reflexivity.
Defined.

Lemma has_band_false (sw : Doppler) (name : string) :
  has_band sw name = false <-> find_band name (bands sw) = None.
Proof.
  unfold has_band. destruct (find_band name (bands sw)); split; congruence.
Qed.

Lemma radial_velocity_at (E : Env) (shift theta v : ndarray) :
  radial_velocity E shift theta = Ok v ->
  length shift = length theta /\ length v = length shift /\
  forall p x t, shift !! p = Some x -> theta !! p = Some t ->
    v !! p = Some (F64.div (F64.mul (F64.neg F64.pi) x)
                           (F64.mul wavenumber (libm_sin E t))).
Proof.
  unfold radial_velocity. intros H. apply elementwise_Ok in H as [Hl ->].
  rewrite !length_map in Hl. split; [exact Hl|]. split.
  - rewrite length_zip_with, !length_map. lia.
  - intros p x t Hx Ht.
    rewrite lookup_zip_with, !list_lookup_fmap, Hx, Ht. reflexivity.
Qed.

(** The uncorrected radial velocity 'raw_Ur' of a subswath read from a file
    without bands 'raw_Ur' and 'raw_fdg'.  Without forecast its pixels are
    NaN where 'valid_doppler' differs from 2 and the velocity of 'raw_fdg'
    elsewhere; with a forecast they are the velocity of 'raw_fdg' less the
    wind-wave Doppler at every pixel, the invalid ones included. *)
Theorem raw_velocity_formula (E : Env) (sw sw' : Doppler) (w : list WindRecord) :
  derive_doppler E sw = Ok (sw', w) ->
  has_band sw "raw_Ur" = false ->
  has_band sw "raw_fdg" = false ->
  exists fdg inci v,
    get_band sw' "raw_fdg" = Ok fdg /\
    get_band sw "incidence_angle" = Ok inci /\
    get_band sw' "raw_Ur" = Ok v /\
    length v = length fdg /\
    (w = [] ->
     exists flags,
       get_band sw "valid_doppler" = Ok flags /\
       forall p x a f,
         fdg !! p = Some x -> inci !! p = Some a -> flags !! p = Some f ->
         v !! p = Some (if F64.neqb f (F64.of_Z 2) then F64.nan
                        else velocity_at E x F64.zero a)) /\
    (w <> [] ->
     exists fww,
       In ("fww", fww) (bands sw') /\
       forall p x a wave,
         fdg !! p = Some x -> inci !! p = Some a -> fww !! p = Some wave ->
         v !! p = Some (velocity_at E x wave a)).
Proof.
  intros H HUr Hfdg.
  apply has_band_false in HUr. apply has_band_false in Hfdg.
  apply derive_doppler_Ok in H
    as (_ & _ & _ & dca & pol & fdg & inci & v & sigma & Hinci & Hbranch).
  exists fdg, inci, v.
  destruct Hbranch as [(Hw & v0 & flags & Hv0 & Hflags & Hv & Hb)
                      |(Hw & fww & shift & Hshift & Hv & Hb)].
  - split; [apply get_band_Ok; rewrite Hb, (find_band_app_r _ _ _ Hfdg); reflexivity|].
    split; [exact Hinci|].
    split; [apply get_band_Ok; rewrite Hb, (find_band_app_r _ _ _ HUr); reflexivity|].
    apply radial_velocity_at in Hv0 as (Hl & Hlv & Hat).
    unfold mask_invalid in Hv. apply mask_assign_Ok in Hv as [Hlm ->].
    split; [rewrite length_zip_with, length_map; rewrite length_map in Hlm; lia|].
    split; [|intros Hne; congruence].
    intros _. exists flags. split; [exact Hflags|].
    intros p x a f Hx Ha Hf.
    rewrite lookup_zip_with, list_lookup_fmap, Hf.
    rewrite (Hat p x (F64.div (F64.mul a F64.pi) (F64.of_Z 180)) Hx).
    + simpl. unfold velocity_at. rewrite sub_zero_r. reflexivity.
    + unfold radians. rewrite list_lookup_fmap, Ha. reflexivity.
  - split; [apply get_band_Ok; rewrite Hb, (find_band_app_r _ _ _ Hfdg); reflexivity|].
    split; [exact Hinci|].
    split; [apply get_band_Ok; rewrite Hb, (find_band_app_r _ _ _ HUr); reflexivity|].
    apply radial_velocity_at in Hv as (Hl & Hlv & Hat).
    apply elementwise_Ok in Hshift as [Hls ->].
    split; [rewrite Hlv, length_zip_with; lia|].
    split; [intros Hnil; congruence|].
    intros _. exists fww. split.
    + rewrite Hb. apply in_or_app. right. simpl. auto.
    + intros p x a wave Hx Ha Hwave.
      rewrite (Hat p (F64.sub x wave) (F64.div (F64.mul a F64.pi) (F64.of_Z 180))).
      * reflexivity.
      * rewrite lookup_zip_with, Hx, Hwave. reflexivity.
      * unfold radians. rewrite list_lookup_fmap, Ha. reflexivity.
Qed.

Lemma raw_velocity_formula_witness :
  exists fdg inci v,
    get_band (Scene.derived [] Scene.second_subswath) "raw_fdg" = Ok fdg /\
    get_band Scene.second_subswath "incidence_angle" = Ok inci /\
    get_band (Scene.derived [] Scene.second_subswath) "raw_Ur" = Ok v /\
    length v = length fdg /\
    (@nil WindRecord = [] ->
     exists flags,
       get_band Scene.second_subswath "valid_doppler" = Ok flags /\
       forall p x a f,
         fdg !! p = Some x -> inci !! p = Some a -> flags !! p = Some f ->
         v !! p = Some (if F64.neqb f (F64.of_Z 2) then F64.nan
                        else velocity_at (Reference.env []) x F64.zero a)) /\
    (@nil WindRecord <> [] ->
     exists fww,
       In ("fww", fww) (bands (Scene.derived [] Scene.second_subswath)) /\
       forall p x a wave,
         fdg !! p = Some x -> inci !! p = Some a -> fww !! p = Some wave ->
         v !! p = Some (velocity_at (Reference.env []) x wave a)).
Proof.
  apply (raw_velocity_formula (Reference.env []) Scene.second_subswath
           (Scene.derived [] Scene.second_subswath) []);
    vm_compute; reflexivity.
Defined.

Lemma map_sub_zero (l : list float) : map (fun p => F64.sub p F64.zero) l = l.
Proof.
  induction l as [|x l IH]; simpl; [reflexivity|]. rewrite sub_zero_r, IH. reflexivity.
Qed.

(** Without forecast, without jump and without offset the corrector gives
    back what the reading loop had: its 'fdg' is 'raw_fdg' and its 'Ur' is
    'raw_Ur', pixel for pixel. *)
Theorem zero_correction_gives_raw_bands (E : Env) (sw sw' : Doppler)
    (fdg_jumps : list float) (i : nat) :
  derive_doppler E sw = Ok (sw', []) ->
  has_band sw "raw_Ur" = false ->
  has_band sw "raw_fdg" = false ->
  has_band sw "fww" = false ->
  fdg_jumps !! i = Some F64.zero ->
  exists fdg v,
    get_band sw' "raw_fdg" = Ok fdg /\
    get_band sw' "raw_Ur" = Ok v /\
    correct_bands E fdg_jumps F64.zero i sw'
    = Ok (add_band (add_band sw' "fdg" fdg) "Ur" v).
Proof.
  intros H HUr Hfdg Hfww Hjump.
  apply has_band_false in HUr. apply has_band_false in Hfdg.
  apply has_band_false in Hfww.
  apply derive_doppler_Ok in H
    as (_ & _ & _ & dca & pol & fdg & inci & v & sigma & Hinci & Hbranch).
  destruct Hbranch as [(_ & v0 & flags & Hv0 & Hflags & Hv & Hb)
                      |(Hw & _)]; [|congruence].
  exists fdg, v.
  assert (Hraw : get_band sw' "raw_fdg" = Ok fdg).
  { apply get_band_Ok. rewrite Hb, (find_band_app_r _ _ _ Hfdg). reflexivity. }
  split; [exact Hraw|].
  split; [apply get_band_Ok; rewrite Hb, (find_band_app_r _ _ _ HUr); reflexivity|].
  unfold correct_bands. rewrite Hraw. simpl. rewrite Hjump. simpl.
  change (add_band_wkv sw' wkv_surface_velocity (corrected_fdg fdg F64.zero F64.zero))
    with (add_band sw' "fdg" (corrected_fdg fdg F64.zero F64.zero)).
  assert (Hsame : corrected_fdg fdg F64.zero F64.zero = fdg).
  { unfold corrected_fdg. rewrite <- (map_sub_zero fdg) at 2.
    apply map_ext. intros x. rewrite sub_zero_r. reflexivity. }
  rewrite Hsame, wind_waves_band_add_fdg.
  assert (Hnone : wind_waves_band sw' = Ok None).
  { unfold wind_waves_band, has_band. rewrite Hb, (find_band_app_r _ _ _ Hfww).
    reflexivity. }
  rewrite Hnone. simpl.
  rewrite !get_band_add_other by reflexivity.
  assert (Hinci' : get_band sw' "incidence_angle" = Ok inci).
  { apply get_band_Ok in Hinci. apply get_band_Ok. rewrite Hb.
    apply find_band_app_l. exact Hinci. }
  assert (Hflags' : get_band sw' "valid_doppler" = Ok flags).
  { apply get_band_Ok in Hflags. apply get_band_Ok. rewrite Hb.
    apply find_band_app_l. exact Hflags. }
  rewrite Hinci'. simpl. rewrite map_sub_zero, Hv0. simpl.
  rewrite Hflags'. simpl. rewrite Hv. reflexivity.
Qed.

Lemma zero_correction_gives_raw_bands_witness :
  exists fdg v,
    get_band (Scene.derived [] Scene.second_subswath) "raw_fdg" = Ok fdg /\
    get_band (Scene.derived [] Scene.second_subswath) "raw_Ur" = Ok v /\
    correct_bands (Reference.env []) (replicate 5 F64.zero) F64.zero 1
      (Scene.derived [] Scene.second_subswath)
    = Ok (add_band (add_band (Scene.derived [] Scene.second_subswath) "fdg" fdg)
            "Ur" v).
Proof.
  apply (zero_correction_gives_raw_bands (Reference.env []) Scene.second_subswath
           (Scene.derived [] Scene.second_subswath) (replicate 5 F64.zero) 1);
    vm_compute; reflexivity.
Defined.

Lemma load_subswath_wind (E : Env) (k : nat) (s1 s2 : Locals) (sw : Doppler)
    (a : ndarray) :
  load_subswath E k s1 = Ok s2 ->
  swath_data s1 !! k = Some sw ->
  get_band sw "incidence_angle" = Ok a ->
  wind s2 = Some (matching_wind E sw).
Proof.
  unfold load_subswath. intros H Hsw Ha.
  rewrite (proj2 (swath_at_Ok _ _ _) Hsw) in H. simpl in H. rewrite Ha in H.
  apply bind_Ok in H as ([sw' w] & Hd & H). injection H as <-. simpl.
  apply derive_doppler_Ok in Hd as (-> & _). reflexivity.
Qed.

(** The name [wind] that decides, at export, whether 'fww' and 'Ur' are
    drawn for each of the five subswaths is the forecast match of the last
    subswath alone. *)
Theorem wind_is_that_of_last_subswath (E : Env) (st0 st : Locals)
    (sw : Doppler) (inci : ndarray) :
  load_stage E st0 = Ok st ->
  swath_data st0 !! 4%nat = Some sw ->
  get_band sw "incidence_angle" = Ok inci ->
  wind st = Some (matching_wind E sw).
Proof.
  intros H Hsw Hinci. unfold load_stage in H.
  apply (for_each_inv _
           (fun k s =>
              (forall j, (k <= j)%nat -> swath_data s !! j = swath_data st0 !! j) /\
              (k = 5%nat -> wind s = Some (matching_wind E sw)))) in H.
  - apply H. reflexivity.
  - split; [reflexivity | discriminate].
  - intros k s1 s2 Hk (Hrest & _) Hbody.
    pose proof Hbody as Hbody'.
    apply load_subswath_Ok in Hbody
      as (swk & Hswk & [(e & He & Hdata & _)|(a & sw' & w & Ha & Hd & Hdata & _)]).
    + split; [intros j Hj; rewrite Hdata; apply Hrest; lia|].
      intros [= ->]. rewrite Hrest, Hsw in Hswk by lia.
      injection Hswk as <-. congruence.
    + split.
      * intros j Hj. rewrite Hdata, list_lookup_insert_ne by lia. apply Hrest. lia.
      * intros [= ->]. pose proof Hswk as Hswk'.
        rewrite Hrest, Hsw in Hswk' by lia. injection Hswk' as <-.
        eapply load_subswath_wind; eauto.
Qed.

Lemma wind_is_that_of_last_subswath_witness :
  wind (Scene.read_state Reference.forecast Reference.acquisition)
  = Some (matching_wind (Reference.env Reference.forecast)
            (Scene.nth_swath Reference.acquisition 4)).
Proof.
  eapply (wind_is_that_of_last_subswath (Reference.env Reference.forecast)
            (Scene.start Reference.acquisition)
            (Scene.read_state Reference.forecast Reference.acquisition)
            (Scene.nth_swath Reference.acquisition 4));
    vm_compute; reflexivity.
Defined.

(** ** The export loop (lines 270-357) *)




(** ** The border of the footprint (lines 54-106) *)

Lemma stride_from_length {A : Type} (step skip : nat) (l : list A) :
  (1 <= step)%nat ->
  length (stride_from skip step l)
  = if Nat.leb (length l) skip then 0%nat
    else S ((length l - skip - 1) / step).
Proof.
  intros Hstep. revert skip. induction l as [|x l IH]; intros skip; simpl.
  - reflexivity.
  - destruct skip as [|skip].
    + simpl. rewrite IH. f_equal. rewrite Nat.sub_0_r.
      destruct (Nat.leb_spec (length l) (step - 1)).
      * symmetry. apply Nat.div_small. lia.
      * replace (length l) with ((length l - (step - 1) - 1) + 1 * step)%nat at 2 by lia.
        rewrite Nat.div_add by lia. lia.
    + rewrite IH. simpl.
      destruct (Nat.leb_spec (length l) skip); reflexivity.
Qed.

Lemma stride_from_head {A : Type} (step : nat) (l : list A) :
  head (stride_from 0 step l) = head l.
Proof. destruct l; reflexivity. Qed.

Lemma removelast_length {A : Type} (l : list A) :
  length (removelast l) = (length l - 1)%nat.
Proof.
  rewrite removelast_firstn_len, length_take. lia.
Qed.

Lemma border_step_bounds (n : nat) :
  (1 <= border_step n)%nat /\
  (n - 2 < 20 * border_step n)%nat /\
  (11 <= n -> 9 * border_step n <= n - 2)%nat.
Proof.
  unfold border_step, num_border_points.
  set (z := Z.of_nat n).
  assert (Hz : (0 <= z)%Z) by (unfold z; lia).
  pose proof (Z.div_mod z 2 ltac:(lia)) as Hd2.
  pose proof (Z.mod_pos_bound z 2 ltac:(lia)) as Hm2.
  set (h := (z / 2)%Z) in *.
  pose proof (Z.div_mod (h * 2 - 1) 10 ltac:(lia)) as Hd10.
  pose proof (Z.mod_pos_bound (h * 2 - 1) 10 ltac:(lia)) as Hm10.
  set (q := ((h * 2 - 1) / 10)%Z) in *.
  assert (Hn : n = Z.to_nat z) by (unfold z; lia).
  destruct (Z.max_spec 1 q) as [[Hlt ->]|[Hge ->]]; lia.
Qed.

(** An edge of [n] points is sampled at no more than twenty points, at no
    fewer than ten when it has eleven points or more, and at all its points
    but the last when it has twenty-one or fewer. *)
Lemma sampled_edge_count {A : Type} (l : list A) :
  let sampled := slice_but_last (border_step (length l)) l in
  (length sampled <= 20)%nat /\
  (11 <= length l -> 10 <= length sampled)%nat /\
  (length l <= 21 -> sampled = removelast l)%nat.
Proof.
  cbv zeta. unfold slice_but_last.
  destruct (border_step_bounds (length l)) as (Hpos & Hup & Hlow).
  rewrite stride_from_length by exact Hpos.
  rewrite removelast_length, Nat.sub_0_r.
  split; [|split].
  - destruct (Nat.leb_spec (length l - 1) 0); [lia|].
    assert ((length l - 1 - 1) / border_step (length l) < 20)%nat; [|lia].
    apply Nat.Div0.div_lt_upper_bound. lia.
  - intros Hn. specialize (Hlow Hn).
    destruct (Nat.leb_spec (length l - 1) 0); [lia|].
    assert (9 <= (length l - 1 - 1) / border_step (length l))%nat; [|lia].
    apply Nat.div_le_lower_bound; lia.
  - intros Hn.
    assert (Hone : border_step (length l) = 1%nat).
    { unfold border_step, num_border_points.
      pose proof (Z.div_mod (Z.of_nat (length l)) 2 ltac:(lia)).
      pose proof (Z.mod_pos_bound (Z.of_nat (length l)) 2 ltac:(lia)).
      set (h := (Z.of_nat (length l) / 2)%Z) in *.
      pose proof (Z.div_mod (h * 2 - 1) 10 ltac:(lia)).
      pose proof (Z.mod_pos_bound (h * 2 - 1) 10 ltac:(lia)).
      set (q := ((h * 2 - 1) / 10)%Z) in *. lia. }
    rewrite Hone. generalize (removelast l). clear.
    intros k. induction k as [|x k IH]; simpl; [reflexivity|]. f_equal. exact IH.
Qed.

Lemma column_Ok (rows : list (list float)) (cols j : nat) (c : list float) :
  column rows cols j = Ok c ->
  Forall2 (fun row x => row !! j = Some x) rows c.
Proof.
  unfold column. destruct (Nat.ltb j cols); [|discriminate].
  intros H. apply for_list_Ok in H.
  eapply Forall2_impl; [exact H|].
  intros row x Hx. simpl in Hx. destruct (row !! j); congruence.
Qed.

Lemma slice_but_last_length {A B : Type} (step : nat) (l : list A) (k : list B) :
  length l = length k ->
  length (slice_but_last step l) = length (slice_but_last step k).
Proof.
  intros Hlen. unfold slice_but_last.
  assert (Hr : length (removelast l) = length (removelast k))
    by (rewrite !removelast_length; lia).
  revert Hr. generalize (removelast l) (removelast k) 0%nat.
  clear. intros l. induction l as [|x l IH]; intros [|y k] skip H; simpl in *;
    try reflexivity; try discriminate.
  injection H as H. destruct skip; simpl; rewrite (IH k); auto.
Qed.

Lemma slice_but_last_head {A : Type} (step : nat) (l : list A) :
  (2 <= length l)%nat ->
  head (slice_but_last step l) = head l.
Proof.
  intros Hlen. unfold slice_but_last. rewrite stride_from_head.
  destruct l as [|x [|y l]]; simpl in *; try lia. reflexivity.
Qed.

(** What [border_of] returns, by the shape of the grid. *)
Lemma border_of_Ok (g : grid) (b : Border) :
  border_of g = Ok b ->
  exists first final,
    head g = Some first /\ last g = Some final /\
    Forall2 (fun row x => row !! 0%nat = Some x)
            (slice_but_last (border_step (grid_rows g)) g) (az_left b) /\
    length (az_right b) = length (slice_but_last (border_step (grid_rows g)) g) /\
    ra_upper b = slice_but_last (border_step (length first)) final /\
    ra_lower b = slice_but_last (border_step (length first)) first.
Proof.
  unfold border_of. intros H.
  apply bind_Ok in H as (left & Hleft & H).
  apply bind_Ok in H as (right & Hright & H).
  apply bind_Ok in H as (upper & Hupper & H).
  apply bind_Ok in H as (lower & Hlower & H).
  injection H as <-. simpl.
  destruct (last g) as [final|] eqn:Hfinal; [|discriminate].
  destruct (head g) as [first|] eqn:Hfirst; [|discriminate].
  injection Hupper as <-. injection Hlower as <-.
  exists first, final.
  assert (Hcols : grid_cols g = length first).
  { destruct g; simpl in *; congruence. }
  rewrite Hcols. repeat split.
  - eapply column_Ok; eauto.
  - apply column_Ok in Hright. apply Forall2_length in Hright. lia.
Qed.

(** The lengths of the four sides depend on the shape alone. *)
Lemma border_of_same_shape (g g' : grid) (b b' : Border) :
  border_of g = Ok b -> border_of g' = Ok b' ->
  map length g = map length g' ->
  length (az_left b) = length (az_left b') /\
  length (az_right b) = length (az_right b') /\
  length (ra_upper b) = length (ra_upper b') /\
  length (ra_lower b) = length (ra_lower b').
Proof.
  intros Hb Hb' Hshape.
  apply border_of_Ok in Hb as (f & l & Hf & Hl & Hleft & Hright & -> & ->).
  apply border_of_Ok in Hb' as (f' & l' & Hf' & Hl' & Hleft' & Hright' & -> & ->).
  apply Forall2_length in Hleft, Hleft'.
  assert (Hrows : length g = length g').
  { rewrite <- (length_map length g), Hshape, length_map. reflexivity. }
  assert (Hfirst : length f = length f').
  { destruct g, g'; simpl in *; try discriminate.
    injection Hf as ->. injection Hf' as ->. congruence. }
  assert (Hlast : length l = length l').
  { rewrite last_lookup in Hl, Hl'.
    assert (Hl1 : map length g !! Init.Nat.pred (length g) = Some (length l))
      by (rewrite list_lookup_fmap, Hl; reflexivity).
    assert (Hl2 : map length g' !! Init.Nat.pred (length g') = Some (length l'))
      by (rewrite list_lookup_fmap, Hl'; reflexivity).
    rewrite Hshape, Hrows in Hl1. congruence. }
  unfold grid_rows in *. rewrite Hfirst, Hrows in *.
  repeat split.
  - rewrite <- Hleft, <- Hleft'. apply slice_but_last_length. exact Hrows.
  - rewrite Hright, Hright'. apply slice_but_last_length. exact Hrows.
  - apply slice_but_last_length. exact Hlast.
  - apply slice_but_last_length. exact Hfirst.
Qed.

Lemma ring_of_Ok (bs : list Border) (ring : list float) :
  ring_of bs = Ok ring ->
  exists b0 b1 b2 b3 b4,
    bs = [b0; b1; b2; b3; b4] /\
    ring = az_left b0 ++ ra_upper b0 ++ ra_upper b1 ++ ra_upper b2 ++ ra_upper b3
           ++ ra_upper b4 ++ rev (az_right b4) ++ rev (ra_lower b4)
           ++ rev (ra_lower b3) ++ rev (ra_lower b2) ++ rev (ra_lower b1)
           ++ rev (ra_lower b0).
Proof.
  destruct bs as [|b0 [|b1 [|b2 [|b3 [|b4 [|b5 bs]]]]]]; simpl; try discriminate.
  intros [= <-]. eauto 10.
Qed.

(** The first and the last point of a ring are the first point of the
    first row of the first grid, as soon as that row has two points. *)
Lemma ring_ends (g : grid) (b0 : Border) (bs : list Border) (ring : list float) :
  border_of g = Ok b0 ->
  ring_of (b0 :: bs) = Ok ring ->
  (2 <= grid_cols g)%nat ->
  exists x, head g ≫= head = Some x /\ head ring = Some x /\ last ring = Some x.
Proof.
  intros Hb Hring Hcols.
  apply ring_of_Ok in Hring as (c0 & b1 & b2 & b3 & b4 & [= <- ->] & ->).
  apply border_of_Ok in Hb as (first & final & Hfirst & Hfinal & Hleft & _ & Hup & Hlow).
  assert (Hc : grid_cols g = length first).
  { destruct g; simpl in *; congruence. }
  rewrite Hc in Hcols.
  destruct first as [|x first'] eqn:Hrow; [simpl in Hcols; lia|].
  exists x. rewrite Hfirst. split; [reflexivity|].
  assert (Hlower : head (ra_lower b0) = Some x).
  { rewrite Hlow, slice_but_last_head by exact Hcols. reflexivity. }
  split.
  - destruct (az_left b0) as [|y left] eqn:Hl.
    + (* a single row: the upper border is the lower border *)
      apply Forall2_length in Hleft. simpl in Hleft.
      assert (Hone : removelast g = []).
      { unfold slice_but_last in Hleft.
        destruct (removelast g); [reflexivity | discriminate]. }
      assert (Hg : g = [x :: first']).
      { destruct g as [|r [|r' g']]; simpl in *; try discriminate; congruence. }
      subst g. simpl in Hfinal. injection Hfinal as <-.
      simpl. rewrite Hup. rewrite <- Hlow.
      destruct (ra_lower b0); simpl in *; [discriminate | exact Hlower].
    + simpl. unfold slice_but_last in Hleft.
      destruct g as [|r [|r' g']]; simpl in Hfirst; try discriminate.
      * simpl in Hleft. inversion Hleft.
      * injection Hfirst as ->. simpl in Hleft.
        inversion Hleft as [|? ? ? ? Hy _]; subst. simpl in Hy. congruence.
  - rewrite !app_assoc. rewrite last_app.
    destruct (ra_lower b0) as [|z lower] eqn:Hl; [discriminate|].
    simpl in Hlower. injection Hlower as ->.
    simpl rev. rewrite last_snoc. reflexivity.
Qed.

Lemma footprint_vertices_Ok (M : Libm) (grids : list (grid * grid))
    (vertices : list (float * float)) :
  footprint_vertices M grids = Ok vertices ->
  exists g0 g1 g2 g3 g4 b0 b1 b2 b3 b4 c0 c1 c2 c3 c4 lons lats,
    grids = [g0; g1; g2; g3; g4] /\
    border_of (fst g0) = Ok b0 /\ border_of (fst g1) = Ok b1 /\
    border_of (fst g2) = Ok b2 /\ border_of (fst g3) = Ok b3 /\
    border_of (fst g4) = Ok b4 /\
    border_of (snd g0) = Ok c0 /\ border_of (snd g1) = Ok c1 /\
    border_of (snd g2) = Ok c2 /\ border_of (snd g3) = Ok c3 /\
    border_of (snd g4) = Ok c4 /\
    ring_of [b0; b1; b2; b3; b4] = Ok lons /\
    ring_of [c0; c1; c2; c3; c4] = Ok lats /\
    vertices = zip (map (correct_longitude M) lons) lats.
Proof.
  unfold footprint_vertices. intros H.
  apply bind_Ok in H as (bl & Hbl & H).
  apply bind_Ok in H as (cl & Hcl & H).
  apply bind_Ok in H as (lons & Hlons & H).
  apply bind_Ok in H as (lats & Hlats & H).
  injection H as <-.
  pose proof Hlons as Hlons'. pose proof Hlats as Hlats'.
  apply ring_of_Ok in Hlons' as (b0 & b1 & b2 & b3 & b4 & -> & _).
  apply ring_of_Ok in Hlats' as (c0 & c1 & c2 & c3 & c4 & -> & _).
  apply for_list_Ok in Hbl, Hcl.
  destruct grids as [|g0 [|g1 [|g2 [|g3 [|g4 [|g5 grids]]]]]];
    repeat match goal with
      | H : Forall2 _ [] (_ :: _) |- _ => inversion H
      | H : Forall2 _ (_ :: _) [] |- _ => inversion H
      | H : Forall2 _ (_ :: _) (_ :: _) |- _ =>
          apply Forall2_cons_1 in H; destruct H as [? H]
      end.
  exists g0, g1, g2, g3, g4, b0, b1, b2, b3, b4, c0, c1, c2, c3, c4, lons, lats.
  repeat split; assumption.
Qed.

Lemma same_shape_cols (g g' : grid) :
  map length g = map length g' -> grid_cols g = grid_cols g'.
Proof.
  destruct g, g'; simpl; intros H; try discriminate; [reflexivity | congruence].
Qed.

Lemma rings_same_length (g0 g1 g2 g3 g4 : grid * grid)
    (b0 b1 b2 b3 b4 c0 c1 c2 c3 c4 : Border) (lons lats : list float) :
  Forall (fun g : grid * grid => map length (fst g) = map length (snd g))
         [g0; g1; g2; g3; g4] ->
  border_of (fst g0) = Ok b0 -> border_of (fst g1) = Ok b1 ->
  border_of (fst g2) = Ok b2 -> border_of (fst g3) = Ok b3 ->
  border_of (fst g4) = Ok b4 ->
  border_of (snd g0) = Ok c0 -> border_of (snd g1) = Ok c1 ->
  border_of (snd g2) = Ok c2 -> border_of (snd g3) = Ok c3 ->
  border_of (snd g4) = Ok c4 ->
  ring_of [b0; b1; b2; b3; b4] = Ok lons ->
  ring_of [c0; c1; c2; c3; c4] = Ok lats ->
  length lons = length lats.
Proof.
  intros Hshape H0 H1 H2 H3 H4 K0 K1 K2 K3 K4 Hlons Hlats.
  apply Forall_cons in Hshape as [S0 Hshape].
  apply Forall_cons in Hshape as [S1 Hshape].
  apply Forall_cons in Hshape as [S2 Hshape].
  apply Forall_cons in Hshape as [S3 Hshape].
  apply Forall_cons in Hshape as [S4 _].
  destruct (border_of_same_shape _ _ _ _ H0 K0 S0) as (A0 & B0 & C0 & D0).
  destruct (border_of_same_shape _ _ _ _ H1 K1 S1) as (A1 & B1 & C1 & D1).
  destruct (border_of_same_shape _ _ _ _ H2 K2 S2) as (A2 & B2 & C2 & D2).
  destruct (border_of_same_shape _ _ _ _ H3 K3 S3) as (A3 & B3 & C3 & D3).
  destruct (border_of_same_shape _ _ _ _ H4 K4 S4) as (A4 & B4 & C4 & D4).
  simpl in Hlons, Hlats. injection Hlons as <-. injection Hlats as <-.
  rewrite !length_app, !length_rev. lia.
Qed.

Lemma zip_ends {A B : Type} (l : list A) (k : list B) (x : A) (y : B) :
  length l = length k ->
  head l = Some x -> head k = Some y ->
  last l = Some x -> last k = Some y ->
  head (zip l k) = Some (x, y) /\ last (zip l k) = Some (x, y).
Proof.
  intros Hlen Hhx Hhy Hlx Hly. split.
  - destruct l, k; simpl in *; try discriminate. congruence.
  - rewrite last_lookup in Hlx. rewrite last_lookup in Hly.
    rewrite last_lookup, length_zip_with, lookup_zip_with.
    replace (length l `min` length k)%nat with (length l) by lia.
    rewrite Hlx. simpl. rewrite Hlen, Hly. reflexivity.
Qed.

(** The footprint is a closed ring: when the longitude and latitude grids
    of each subswath have one shape and the first row of the first
    subswath has two points or more, the first and the last vertex are both
    the first point of that row, its longitude corrected. *)
Theorem footprint_ring_is_closed (M : Libm) (grids rest : list (grid * grid))
    (lon0 lat0 : grid) (vertices : list (float * float)) :
  footprint_vertices M grids = Ok vertices ->
  grids = (lon0, lat0) :: rest ->
  Forall (fun g : grid * grid => map length (fst g) = map length (snd g)) grids ->
  (2 <= grid_cols lon0)%nat ->
  exists x y,
    head lon0 ≫= head = Some x /\
    head lat0 ≫= head = Some y /\
    head vertices = Some (correct_longitude M x, y) /\
    last vertices = Some (correct_longitude M x, y).
Proof.
  intros H Hg Hshape Hcols.
  apply footprint_vertices_Ok in H
    as (g0 & g1 & g2 & g3 & g4 & b0 & b1 & b2 & b3 & b4 & c0 & c1 & c2 & c3 & c4
        & lons & lats & -> & H0 & H1 & H2 & H3 & H4 & K0 & K1 & K2 & K3 & K4
        & Hlons & Hlats & ->).
  pose proof (rings_same_length _ _ _ _ _ _ _ _ _ _ _ _ _ _ _ _ _
                Hshape H0 H1 H2 H3 H4 K0 K1 K2 K3 K4 Hlons Hlats) as Hlen.
  injection Hg as ->. simpl in H0, K0.
  apply Forall_cons in Hshape as [S0 _]. simpl in S0.
  destruct (ring_ends _ _ _ _ H0 Hlons Hcols) as (x & Hx & Hhx & Hlx).
  destruct (ring_ends _ _ _ _ K0 Hlats) as (y & Hy & Hhy & Hly).
  { rewrite <- (same_shape_cols _ _ S0). exact Hcols. }
  exists x, y. split; [exact Hx|]. split; [exact Hy|].
  apply zip_ends.
  - rewrite length_map. exact Hlen.
  - destruct lons; simpl in *; [discriminate | congruence].
  - exact Hhy.
  - rewrite last_lookup in Hlx. rewrite last_lookup, length_map, list_lookup_fmap, Hlx.
    reflexivity.
  - exact Hly.
Qed.

Lemma footprint_ring_is_closed_witness :
  exists x y,
    head (Scene.lon_grid 0) ≫= head = Some x /\
    head Scene.lat_grid ≫= head = Some y /\
    head Scene.footprint = Some (correct_longitude Scene.math x, y) /\
    last Scene.footprint = Some (correct_longitude Scene.math x, y).
Proof.
  apply (footprint_ring_is_closed Scene.math Scene.grids (tail Scene.grids)
           (Scene.lon_grid 0) Scene.lat_grid Scene.footprint).
  - vm_compute; reflexivity.
  - vm_compute; reflexivity.
  - repeat (apply Forall_cons_2; [vm_compute; reflexivity|]). apply Forall_nil_2.
  - vm_compute; lia.
Defined.

Lemma rectangular_last (g : grid) (first final : list float) :
  Forall (fun row => length row = grid_cols g) g ->
  head g = Some first -> last g = Some final ->
  length final = length first.
Proof.
  intros Hrect Hf Hl.
  assert (Hc : grid_cols g = length first).
  { destruct g; simpl in *; congruence. }
  rewrite Forall_forall in Hrect. rewrite <- Hc. apply Hrect.
  rewrite last_lookup in Hl. eapply list_elem_of_lookup_2; eauto.
Qed.

Lemma border_of_counts (g : grid) (b : Border) :
  border_of g = Ok b ->
  Forall (fun row => length row = grid_cols g) g ->
  let sides := [az_left b; az_right b; ra_upper b; ra_lower b] in
  Forall (fun side : list float => (length side <= 20)%nat) sides /\
  ((11 <= grid_rows g)%nat -> (11 <= grid_cols g)%nat ->
   Forall (fun side : list float => (10 <= length side)%nat) sides).
Proof.
  intros Hb Hrect.
  apply border_of_Ok in Hb as (first & final & Hf & Hl & Hleft & Hright & Hup & Hlow).
  pose proof (rectangular_last _ _ _ Hrect Hf Hl) as Hfinal.
  assert (Hc : grid_cols g = length first).
  { destruct g; simpl in *; congruence. }
  apply Forall2_length in Hleft.
  destruct (sampled_edge_count g) as (Ha & Ha' & _).
  destruct (sampled_edge_count first) as (Hr & Hr' & _).
  destruct (sampled_edge_count final) as (Hu & Hu' & _).
  rewrite Hfinal in Hu, Hu'. unfold grid_rows in *.
  cbv zeta. split.
  - repeat (apply Forall_cons; split); try apply Forall_nil;
      rewrite ?Hup, ?Hlow; lia.
  - intros Hrows Hcols. rewrite Hc in Hcols.
    specialize (Ha' Hrows). specialize (Hr' Hcols).
    specialize (Hu' ltac:(lia)).
    repeat (apply Forall_cons; split); try apply Forall_nil;
      rewrite ?Hup, ?Hlow; lia.
Qed.

(** The footprint has no more than 240 vertices, and no fewer than 120
    when every grid has eleven rows and eleven columns or more. *)
Theorem footprint_vertex_count (M : Libm) (grids : list (grid * grid))
    (vertices : list (float * float)) :
  footprint_vertices M grids = Ok vertices ->
  Forall (fun g : grid * grid =>
            map length (fst g) = map length (snd g) /\
            Forall (fun row => length row = grid_cols (fst g)) (fst g)) grids ->
  (length vertices <= 240)%nat /\
  (Forall (fun g : grid * grid =>
             (11 <= grid_rows (fst g))%nat /\ (11 <= grid_cols (fst g))%nat) grids ->
   (120 <= length vertices)%nat).
Proof.
  intros H Hgrids.
  apply footprint_vertices_Ok in H
    as (g0 & g1 & g2 & g3 & g4 & b0 & b1 & b2 & b3 & b4 & c0 & c1 & c2 & c3 & c4
        & lons & lats & -> & H0 & H1 & H2 & H3 & H4 & K0 & K1 & K2 & K3 & K4
        & Hlons & Hlats & ->).
  assert (Hshape : Forall (fun g : grid * grid =>
                             map length (fst g) = map length (snd g))
                          [g0; g1; g2; g3; g4]).
  { eapply Forall_impl; [exact Hgrids|]. intros g [Hs _]. exact Hs. }
  pose proof (rings_same_length _ _ _ _ _ _ _ _ _ _ _ _ _ _ _ _ _
                Hshape H0 H1 H2 H3 H4 K0 K1 K2 K3 K4 Hlons Hlats) as Hlen.
  rewrite length_zip_with, length_map, <- Hlen, Nat.min_id.
  apply Forall_cons in Hgrids as [[_ R0] Hgrids].
  apply Forall_cons in Hgrids as [[_ R1] Hgrids].
  apply Forall_cons in Hgrids as [[_ R2] Hgrids].
  apply Forall_cons in Hgrids as [[_ R3] Hgrids].
  apply Forall_cons in Hgrids as [[_ R4] _].
  destruct (border_of_counts _ _ H0 R0) as (U0 & L0).
  destruct (border_of_counts _ _ H1 R1) as (U1 & L1).
  destruct (border_of_counts _ _ H2 R2) as (U2 & L2).
  destruct (border_of_counts _ _ H3 R3) as (U3 & L3).
  destruct (border_of_counts _ _ H4 R4) as (U4 & L4).
  simpl in Hlons. injection Hlons as <-.
  rewrite !length_app, !length_rev.
  repeat match goal with
    | H : Forall _ (_ :: _) |- _ => apply Forall_cons in H; destruct H as [? H]
    end.
  split; [lia|].
  intros Hbig.
  apply Forall_cons in Hbig as [[? ?] Hbig].
  apply Forall_cons in Hbig as [[? ?] Hbig].
  apply Forall_cons in Hbig as [[? ?] Hbig].
  apply Forall_cons in Hbig as [[? ?] Hbig].
  apply Forall_cons in Hbig as [[? ?] _].
  specialize (L0 ltac:(assumption) ltac:(assumption)).
  specialize (L1 ltac:(assumption) ltac:(assumption)).
  specialize (L2 ltac:(assumption) ltac:(assumption)).
  specialize (L3 ltac:(assumption) ltac:(assumption)).
  specialize (L4 ltac:(assumption) ltac:(assumption)).
  repeat match goal with
    | H : Forall _ (_ :: _) |- _ => apply Forall_cons in H; destruct H as [? H]
    end.
  lia.
Qed.

Lemma footprint_vertex_count_witness :
  (length Scene.footprint <= 240)%nat /\ (120 <= length Scene.footprint)%nat.
Proof.
  assert (Hshape :
    Forall (fun g : grid * grid =>
              map length (fst g) = map length (snd g) /\
              Forall (fun row => length row = grid_cols (fst g)) (fst g)) Scene.grids).
  { repeat (apply Forall_cons_2;
            [split; [vm_compute; reflexivity|];
             repeat (apply Forall_cons_2; [vm_compute; reflexivity|]);
             apply Forall_nil_2|]).
    apply Forall_nil_2. }
  destruct (footprint_vertex_count Scene.math Scene.grids Scene.footprint
              ltac:(vm_compute; reflexivity) Hshape) as [Hmost Hleast].
  split; [exact Hmost|].
  apply Hleast.
  repeat (apply Forall_cons_2; [split; vm_compute; lia|]). apply Forall_nil_2.
Defined.

(** ** The entry point (lines 31-119 and 359) *)

Section EntryPointProperties.

Context {Geom : Type}.
Implicit Types (V : Services Geom) (r : Returned Geom).

(** The runs of [get_or_create] that return, case by case. *)
Lemma get_or_create_Ok V (E : Env) (uri : string) (reprocess : bool) r :
  get_or_create V E uri reprocess = Ok r ->
  exists ingested created,
    super_get_or_create Geom V uri = Ok (ingested, created) /\
    match ingested with
    | Not_A_Dataset =>
        r = {| returned_ds := Not_A_Dataset; returned_flag := false;
               writes := []; products := None |}
    | A_Dataset ds =>
        let titled := {| entry_title := "SAR Doppler"; geometry := geometry ds |} in
        exists n gg,
          open_subswath Geom V uri 0 = Ok n /\ get_border Geom V n = Ok gg /\
          ((F64.ltb (geom_area Geom V gg) (geom_area Geom V (geometry ds)) = true /\
            reprocess = false /\
            r = {| returned_ds := A_Dataset titled; returned_flag := false;
                   writes := [SaveDataset "SAR Doppler"]; products := None |}) \/
           (F64.ltb (geom_area Geom V gg) (geom_area Geom V (geometry ds))
            && negb reprocess = false /\
            exists read vertices new_geometry,
              for_list (fun i => sw ← open_subswath Geom V uri i;
                                 g ← get_geolocation_grids Geom V sw;
                                 Ok (sw, g)) (seq 0 n_subswaths) = Ok read /\
              footprint_vertices (libm Geom V) (map snd read) = Ok vertices /\
              read_polygon Geom V vertices = Ok new_geometry /\
              ((geom_eqb Geom V (geometry ds) new_geometry = true /\
                reprocess = false /\
                r = {| returned_ds := A_Dataset titled; returned_flag := false;
                       writes := [SaveDataset "SAR Doppler"]; products := None |}) \/
               (geom_eqb Geom V (geometry ds) new_geometry && negb reprocess = false /\
                exists outcome,
                  create_data_products E (map fst read) = Ok outcome /\
                  r = {| returned_ds :=
                           A_Dataset
                             (if negb (geom_eqb Geom V (geometry ds) new_geometry)
                              then {| entry_title := "SAR Doppler";
                                      geometry := new_geometry |}
                              else titled);
                         returned_flag := success outcome;
                         writes :=
                           if negb (geom_eqb Geom V (geometry ds) new_geometry)
                           then [SaveDataset "SAR Doppler";
                                 SaveGeolocation new_geometry]
                           else [SaveDataset "SAR Doppler"];
                         products := Some outcome |}))))
    end.
Proof.
  unfold get_or_create. intros H.
  apply bind_Ok in H as ([ingested created] & Hsuper & H).
  exists ingested, created. split; [exact Hsuper|].
  destruct ingested as [ds|]; [|injection H as <-; reflexivity].
  cbv zeta. simpl in H.
  apply bind_Ok in H as (n & Hn & H).
  apply bind_Ok in H as (gg & Hgg & H).
  exists n, gg. split; [exact Hn|]. split; [exact Hgg|].
  destruct (F64.ltb (geom_area Geom V gg) (geom_area Geom V (geometry ds))
            && negb reprocess) eqn:Harea.
  - left. apply andb_true_iff in Harea as [Ha Hr].
    apply negb_true_iff in Hr. injection H as <-. auto.
  - right. split; [reflexivity|].
    apply bind_Ok in H as (read & Hread & H).
    apply bind_Ok in H as (vertices & Hv & H).
    apply bind_Ok in H as (new_geometry & Hnew & H).
    exists read, vertices, new_geometry.
    split; [exact Hread|]. split; [exact Hv|]. split; [exact Hnew|].
    destruct (geom_eqb Geom V (geometry ds) new_geometry && negb reprocess) eqn:Hsame.
    + left. apply andb_true_iff in Hsame as [Hs Hr].
      apply negb_true_iff in Hr. injection H as <-. auto.
    + right. split; [reflexivity|].
      apply bind_Ok in H as (outcome & Hout & H). injection H as <-.
      exists outcome. split; [exact Hout|].
      destruct (geom_eqb Geom V (geometry ds) new_geometry); reflexivity.
Qed.

(** The flag [get_or_create] returns is true exactly when the data products
    were made and no subswath was marked on the way. *)
Theorem flag_means_products_unmarked V (E : Env) (uri : string)
    (reprocess : bool) r :
  get_or_create V E uri reprocess = Ok r ->
  (returned_flag r = true <->
   exists outcome, products r = Some outcome /\ marked_corrupted outcome = []).
Proof.
  intros H. apply get_or_create_Ok in H as (ingested & created & _ & H).
  destruct ingested as [ds|].
  - cbv zeta in H. destruct H as (n & gg & _ & _ & [(_ & _ & ->)|(_ & H)]).
    + simpl. split; [discriminate | intros (o & Ho & _); discriminate].
    + destruct H as (read & vertices & new_geometry & _ & _ & _
                     & [(_ & _ & ->)|(_ & outcome & Hout & ->)]).
      * simpl. split; [discriminate | intros (o & Ho & _); discriminate].
      * simpl. pose proof (returned_flag_reports_marks _ _ _ Hout) as Hflag.
        split.
        -- intros Hs. exists outcome. split; [reflexivity|]. apply Hflag. exact Hs.
        -- intros (o & [= <-] & Hm). apply Hflag. exact Hm.
  - subst r. simpl. split; [discriminate | intros (o & Ho & _); discriminate].
Qed.

(** The footprint is written at most once, and only when the stitched
    geometry differs from the stored one: the run then also makes the data
    products and returns the entry with the new geometry.  In every other
    run that finds a dataset the only write is that of the title, and the
    entry keeps its geometry. *)
Theorem footprint_written_only_when_changed V (E : Env) (uri : string)
    (reprocess : bool) r (ds : Dataset Geom) (created : bool) :
  get_or_create V E uri reprocess = Ok r ->
  super_get_or_create Geom V uri = Ok (A_Dataset ds, created) ->
  (writes r = [SaveDataset "SAR Doppler"] /\
   returned_ds r = A_Dataset {| entry_title := "SAR Doppler";
                                geometry := geometry ds |}) \/
  (exists new_geometry outcome,
     writes r = [SaveDataset "SAR Doppler"; SaveGeolocation new_geometry] /\
     geom_eqb Geom V (geometry ds) new_geometry = false /\
     products r = Some outcome /\
     returned_ds r = A_Dataset {| entry_title := "SAR Doppler";
                                  geometry := new_geometry |}).
Proof.
  intros H Hsuper. apply get_or_create_Ok in H as (ingested & created' & Hs & H).
  rewrite Hsuper in Hs. injection Hs as <- <-. cbv zeta in H.
  destruct H as (n & gg & _ & _ & [(_ & _ & ->)|(_ & H)]); [left; auto|].
  destruct H as (read & vertices & new_geometry & _ & _ & _
                 & [(_ & _ & ->)|(_ & outcome & Hout & ->)]); [left; auto|].
  destruct (geom_eqb Geom V (geometry ds) new_geometry) eqn:Heq; simpl.
  - left. auto.
  - right. exists new_geometry, outcome. auto.
Qed.

(** Calling again without [reprocess], after a run that made the data
    products and with nothing changed but the catalogue entry that run
    returned: the manager returns False, makes no data product and does not
    write the footprint, provided a geometry equals itself. *)
Theorem second_call_is_skipped V (E : Env) (uri : string) (reprocess : bool) r
    (outcome : Outcome) :
  get_or_create V E uri reprocess = Ok r ->
  products r = Some outcome ->
  (forall g, geom_eqb Geom V g g = true) ->
  get_or_create (with_catalogue V (returned_ds r)) E uri false
  = Ok {| returned_ds := returned_ds r; returned_flag := false;
          writes := [SaveDataset "SAR Doppler"]; products := None |}.
Proof.
  intros H Hprod Hrefl.
  apply get_or_create_Ok in H as (ingested & created & _ & H).
  destruct ingested as [ds|]; [|subst r; discriminate].
  cbv zeta in H.
  destruct H as (n & gg & Hn & Hgg & [(_ & _ & ->)|(_ & H)]); [discriminate|].
  destruct H as (read & vertices & new_geometry & Hread & Hv & Hnew
                 & [(_ & _ & ->)|(Hdiff & o & Hout & ->)]); [discriminate|].
  simpl returned_ds.
  set (stored := if negb (geom_eqb Geom V (geometry ds) new_geometry)
                 then {| entry_title := "SAR Doppler"; geometry := new_geometry |}
                 else {| entry_title := "SAR Doppler"; geometry := geometry ds |}).
  assert (Htitled : {| entry_title := "SAR Doppler"; geometry := geometry stored |}
                    = stored).
  { unfold stored.
    destruct (geom_eqb Geom V (geometry ds) new_geometry); reflexivity. }
  assert (Hequal : geom_eqb Geom V (geometry stored) new_geometry = true).
  { unfold stored. destruct (geom_eqb Geom V (geometry ds) new_geometry) eqn:Heq;
      simpl; [exact Heq | apply Hrefl]. }
  unfold get_or_create, with_catalogue.
  cbn -[for_list footprint_vertices create_data_products F64.ltb].
  rewrite Hn. cbn -[for_list footprint_vertices create_data_products F64.ltb].
  rewrite Hgg. cbn -[for_list footprint_vertices create_data_products F64.ltb].
  rewrite Htitled.
  destruct (F64.ltb (geom_area Geom V gg) (geom_area Geom V (geometry stored)));
    cbn -[for_list footprint_vertices create_data_products]; [reflexivity|].
  change [0%nat; 1%nat; 2%nat; 3%nat; 4%nat] with (seq 0 n_subswaths).
  rewrite Hread. cbn -[for_list footprint_vertices create_data_products].
  rewrite Hv. cbn -[for_list footprint_vertices create_data_products].
  rewrite Hnew. cbn -[for_list footprint_vertices create_data_products].
  rewrite Hequal. reflexivity.
Qed.

End EntryPointProperties.

Lemma same_float_refl (x : float) : Scene.same_float x x = true.
Proof.
  destruct x as [s|s| |s m e]; simpl; trivial.
  - destruct s; reflexivity.
  - destruct s; reflexivity.
  - rewrite Pos.eqb_refl, Z.eqb_refl. destruct s; reflexivity.
Qed.

Lemma same_vertices_refl (g : list (float * float)) : Scene.same_vertices g g = true.
Proof.
  induction g as [|[x y] g IH]; simpl; trivial.
  now rewrite !same_float_refl, IH.
Qed.

Lemma flag_means_products_unmarked_witness :
  returned_flag Scene.first_call = true <->
  exists outcome, products Scene.first_call = Some outcome /\
                  marked_corrupted outcome = [].
Proof.
  apply (flag_means_products_unmarked (Scene.services [])
           (Reference.env Reference.forecast) "asar" false Scene.first_call).
  vm_compute; reflexivity.
Defined.

Lemma footprint_written_only_when_changed_witness :
  (writes Scene.first_call = [SaveDataset "SAR Doppler"] /\
   returned_ds Scene.first_call
   = A_Dataset {| entry_title := "SAR Doppler"; geometry := [] |}) \/
  (exists new_geometry outcome,
     writes Scene.first_call
     = [SaveDataset "SAR Doppler"; SaveGeolocation new_geometry] /\
     Scene.same_vertices [] new_geometry = false /\
     products Scene.first_call = Some outcome /\
     returned_ds Scene.first_call
     = A_Dataset {| entry_title := "SAR Doppler"; geometry := new_geometry |}).
Proof.
  apply (footprint_written_only_when_changed (Scene.services [])
           (Reference.env Reference.forecast) "asar" false Scene.first_call
           {| entry_title := "ASAR"; geometry := [] |} true).
  - vm_compute; reflexivity.
  - vm_compute; reflexivity.
Defined.

Lemma second_call_is_skipped_witness :
  get_or_create (with_catalogue (Scene.services []) (returned_ds Scene.first_call))
    (Reference.env Reference.forecast) "asar" false
  = Ok {| returned_ds := returned_ds Scene.first_call; returned_flag := false;
          writes := [SaveDataset "SAR Doppler"]; products := None |}.
Proof.
  apply (second_call_is_skipped (Scene.services [])
           (Reference.env Reference.forecast) "asar" false Scene.first_call
           (Reference.outcome Reference.acquisition)).
  - vm_compute; reflexivity.
  - vm_compute; reflexivity.
  - exact same_vertices_refl.
Defined.
